(** * image-clone-controller: the reconcile engine and the mirroring protocol

    A shallow embedding of [pkg/controller] (the image helpers [retagImage],
    [imageAlreadyPresentInRepo], [getRegistryCredentials], [processImage] and
    the controller's [runWorker], [checkAndUpdateImage], readiness predicates
    and [imageNotPresent]), followed by the properties of the design document
    stated over that embedding. *)

From Stdlib Require Import String Ascii List ZArith Bool Lia PeanoNat.
Import ListNotations.
Local Open Scope list_scope.
Local Open Scope string_scope.

Set Implicit Arguments.

(** ** Go values

    A Go call either returns or panics (nil dereference, index out of
    range); [Go A] keeps the two apart so that "never fails" is a statement
    and not a side effect of totality. *)

Inductive Go (A : Type) : Type :=
| Ret (a : A)
| Panic (msg : string).

Arguments Ret {A} a.
Arguments Panic {A} msg.

Definition go_bind {A B} (m : Go A) (k : A -> Go B) : Go B :=
  match m with
  | Ret a => k a
  | Panic msg => Panic msg
  end.

Declare Scope go_scope.
Delimit Scope go_scope with go.
Notation "x <- m ;; k" := (go_bind m (fun x => k))
  (at level 61, m at next level, right associativity) : go_scope.

(** [l[i]] on a slice: a runtime panic when [i] is out of range. *)
Definition index {A} (l : list A) (i : nat) : Go A :=
  match nth_error l i with
  | Some x => Ret x
  | None => Panic "index out of range"
  end.

(** ** The [strings] package, at the call sites of the controller *)

Module strings.

(** [strings.Split(s, sep)] for a one-byte separator, the only kind the
    controller passes (["/"] and [":"]): the pieces between consecutive
    separators, in order; a string without separator is its only piece. *)
Fixpoint Split (s : string) (sep : ascii) : list string :=
  match s with
  | EmptyString => [EmptyString]
  | String c rest =>
      if Ascii.eqb c sep then EmptyString :: Split rest sep
      else match Split rest sep with
           | piece :: pieces => String c piece :: pieces
           | [] => [String c EmptyString]
           end
  end.

(** [strings.Contains(s, sep)] for a one-byte [sep]. *)
Fixpoint Contains (s : string) (sep : ascii) : bool :=
  match s with
  | EmptyString => false
  | String c rest => Ascii.eqb c sep || Contains rest sep
  end.

(** [strings.HasPrefix(s, prefix)]:
    [len(s) >= len(prefix) && s[:len(prefix)] == prefix]. *)
Definition HasPrefix (s prefix : string) : bool :=
  (String.length prefix <=? String.length s)%nat
  && String.eqb (substring 0 (String.length prefix) s) prefix.

End strings.

Definition slash : ascii := "/"%char.
Definition colon : ascii := ":"%char.

(** ** Image helpers *)

(** The three stages of [retagImage], named so that statements can speak
    of them; [retagImage_stages] below shows that the function is their
    composition.

    First the name-and-tag piece picked out of the reference: the second of
    exactly two slash-separated pieces, the first piece otherwise. *)
Definition nameWithTag (name : string) : Go string :=
  let image := strings.Split name slash in
  if (List.length image =? 2)%nat then index image 1 else index image 0.

(** The split of that piece at its colons: [list[0]] and [list[1]]. *)
Definition nameAndTag (imageNameWithTag : string) : Go (string * string) :=
  if strings.Contains imageNameWithTag colon then
    let list := strings.Split imageNameWithTag colon in
    (imageName <- index list 0 ;;
     tag <- index list 1 ;;
     Ret (imageName, tag))%go
  else Ret (imageNameWithTag, "").

(** The last lines of [retagImage]: prefix the repository, append the tag
    when there is one. *)
Definition target (repository : string) (nt : string * string)
  : string * string * string :=
  let imageName := repository ++ "/" ++ fst nt in
  let tag := snd nt in
  let newImage :=
    if (0 <? String.length tag)%nat then imageName ++ ":" ++ tag
    else imageName in
  (imageName, tag, newImage).

(** [retagImage(name)], as one body; [repository] is the package variable
    read from [REPOSITORY] when the process starts. *)
Definition retagImage (repository name : string)
  : Go (string * string * string) :=
  (let image := strings.Split name slash in
   imageNameWithTag <-
     (if (List.length image =? 2)%nat then index image 1
      else index image 0) ;;
   nt <-
     (if strings.Contains imageNameWithTag colon then
        let list := strings.Split imageNameWithTag colon in
        imageName <- index list 0 ;;
        tag <- index list 1 ;;
        Ret (imageName, tag)
      else Ret (imageNameWithTag, "")) ;;
   let imageName := repository ++ "/" ++ fst nt in
   let tag := snd nt in
   let newImage :=
     if (0 <? String.length tag)%nat then imageName ++ ":" ++ tag
     else imageName in
   Ret (imageName, tag, newImage))%go.

(** The name and tag [retagImage] works with. *)
Definition decompose (name : string) : Go (string * string) :=
  go_bind (nameWithTag name) nameAndTag.

(** [imageNotPresent(image)]. *)
Definition imageNotPresent (repository image : string) : bool :=
  if (String.length repository =? 0)%nat then false
  else if negb (strings.HasPrefix image repository) then true
  else false.

(** ** Workloads *)

Record Container := mkContainer {
  Name : string;
  Image : string
}.

(** [appsv1.Deployment], with the fields the controller reads; the counters
    are [int32]. *)
Record Deployment := mkDeployment {
  dep_Namespace : string;
  dep_Name : string;
  Replicas : Z;
  ReadyReplicas : Z;
  dep_Containers : list Container
}.

(** [appsv1.DaemonSet]. *)
Record DaemonSet := mkDaemonSet {
  ds_Namespace : string;
  ds_Name : string;
  DesiredNumberScheduled : Z;
  NumberReady : Z;
  ds_Containers : list Container
}.

(** The text of the runtime error raised by reading through a nil
    pointer. *)
Definition nilDereference : string :=
  "invalid memory address or nil pointer dereference".

(** The readiness predicates take a pointer; [None] is the nil pointer,
    whose [Status] cannot be read. *)
Definition isDeploymentReady (deployment : option Deployment) : Go bool :=
  match deployment with
  | None => Panic nilDereference
  | Some d =>
      let desired := Replicas d in
      let ready := ReadyReplicas d in
      if (desired =? ready)%Z && (desired >? 0)%Z then Ret true
      else Ret false
  end.

Definition isDaemonSetReady (daemonsets : option DaemonSet) : Go bool :=
  match daemonsets with
  | None => Panic nilDereference
  | Some d =>
      let desired := DesiredNumberScheduled d in
      let ready := NumberReady d in
      if (desired =? ready)%Z && (desired >? 0)%Z then Ret true
      else Ret false
  end.

(** The readiness policy as the design document words it. *)
Definition isReady (desired ready : Z) : bool :=
  (desired =? ready)%Z && (0 <? desired)%Z.

(** ** Errors, queue items and the calls the controller issues *)

(** What [errors.IsNotFound] and [errors.IsConflict] look at. *)
Inductive Reason := ReasonNotFound | ReasonConflict | ReasonNone.

(** A non-nil Go [error]: its status reason and its [Error()] text. *)
Record error_value := mkError {
  reason : Reason;
  Error : string
}.

(** The Go [error] interface; [None] is [nil]. *)
Definition error := option error_value.

(** A Go [(T, error)] pair of which one side is meaningful. *)
Inductive result (A : Type) : Type :=
| Ok (a : A)
| Err (e : error_value).

Arguments Ok {A} a.
Arguments Err {A} e.

(** [errors.New] and [fmt.Errorf] without [%w]: a plain error. *)
Definition New (msg : string) : error_value := mkError ReasonNone msg.

Definition IsNotFound (err : error) : bool :=
  match err with
  | Some (mkError ReasonNotFound _) => true
  | _ => false
  end.

Definition IsConflict (err : error) : bool :=
  match err with
  | Some (mkError ReasonConflict _) => true
  | _ => false
  end.

(** [%s] of an [error] variable that may be nil. *)
Definition errText (err : error) : string :=
  match err with
  | Some e => Error e
  | None => "%!s(<nil>)"
  end.

(** An [interface{}] taken from the work queue: a string key, or anything
    else (kept as its [%#v] rendering). *)
Inductive Item :=
| StringItem (key : string)
| OtherItem (repr : string).

(** [authn.AuthConfig] with the two fields the controller fills. *)
Record Authenticator := mkAuth {
  Username : string;
  Password : string
}.

(** The process environment, as [os.Getenv] reads it (an unset variable is
    the empty string). *)
Record Environ := mkEnviron {
  REPOSITORY : string;
  USERNAME : string;
  PASSWORD : string
}.

(** Every call that leaves the reconciler, in the order issued. *)
Inductive Event :=
| LogInfo (msg : string)
| HandleError (msg : string)
| ListerGet (resourceType namespace name : string)
| RemoteImage (imgName : string)
| RemoteList (registry : string)
| RemoteWrite (newImage : string)
| UpdateDeployment (namespace : string) (dep : Deployment)
| UpdateDaemonSet (namespace : string) (daemonset : DaemonSet)
| Forget (obj : Item)
| AddRateLimited (key : string)
| Done (obj : Item).

Definition isPush (e : Event) : bool :=
  match e with RemoteWrite _ => true | _ => false end.

Definition isUpdate (e : Event) : bool :=
  match e with UpdateDeployment _ _ | UpdateDaemonSet _ _ => true | _ => false end.

Definition isForget (e : Event) : bool :=
  match e with Forget _ => true | _ => false end.

Definition isAddRateLimited (e : Event) : bool :=
  match e with AddRateLimited _ => true | _ => false end.

Definition isNetwork (e : Event) : bool :=
  match e with
  | RemoteImage _ | RemoteList _ | RemoteWrite _
  | UpdateDeployment _ _ | UpdateDaemonSet _ _ => true
  | _ => false
  end.

Definition count (p : Event -> bool) (t : list Event) : nat :=
  List.length (filter p t).

(** ** The collaborators

    The registry client ([name], [remote]), the informer caches (listers)
    and the cluster API are outside the controller; it sees them through
    this interface, over a world [W] that they read and change. *)
Class Collaborators (W : Type) := {
  Reference : Type;
  v1Image : Type;
  (** [name.ParseReference] *)
  ParseReference : string -> result Reference;
  (** [%s] of a reference *)
  RefString : Reference -> string;
  (** [remote.Image(ref)], with the default (anonymous) authenticator *)
  remoteImage : Reference -> W -> result v1Image;
  (** [name.NewRepository(registry)] then [remote.List(rep, opt)], both
      errors dropped as the caller drops them: the listing is then empty *)
  remoteList : string -> Authenticator -> W -> list string;
  (** [remote.Write(ref, img, opt)] *)
  remoteWrite : Reference -> v1Image -> Authenticator -> W -> W * error;
  (** [depLister.Deployments(namespace).Get(name)] *)
  getDeployment : string -> string -> W -> result Deployment;
  (** [daemonLister.DaemonSets(namespace).Get(name)] *)
  getDaemonSet : string -> string -> W -> result DaemonSet;
  (** [AppsV1().Deployments(namespace).Update(ctx, dep, opts)] *)
  updateDeployment : string -> Deployment -> W -> W * error;
  (** [AppsV1().DaemonSets(namespace).Update(ctx, daemonset, opts)] *)
  updateDaemonSet : string -> DaemonSet -> W -> W * error
}.

(** ** The reconciler's monad: a world, the calls issued so far, and a
    possible panic *)

Record State (W : Type) := mkState {
  world : W;
  trace : list Event
}.

Arguments mkState {W} world trace.

Definition M (W A : Type) : Type := State W -> Go A * State W.

Section Monad.
Context {W : Type}.

Definition ret {A} (a : A) : M W A := fun s => (Ret a, s).

Definition bind {A B} (m : M W A) (k : A -> M W B) : M W B :=
  fun s =>
    match m s with
    | (Ret a, s') => k a s'
    | (Panic msg, s') => (Panic msg, s')
    end.

(** A pure Go computation, whose panic becomes the monad's. *)
Definition lift {A} (g : Go A) : M W A := fun s => (g, s).

(** Record one issued call. *)
Definition emit (e : Event) : M W unit :=
  fun s => (Ret tt, mkState (world s) (trace s ++ [e])%list).

(** Read the world. *)
Definition ask {A} (f : W -> A) : M W A := fun s => (Ret (f (world s)), s).

(** Run a collaborator call that may change the world. *)
Definition act {A} (f : W -> W * A) : M W A :=
  fun s => let (w', a) := f (world s) in (Ret a, mkState w' (trace s)).

(** [defer c.workqueue.Done(obj)]: the deferred call runs when the body
    returns and also when it panics. *)
Definition defer {A} (e : Event) (body : M W A) : M W A :=
  fun s =>
    let (r, s') := body s in
    (r, mkState (world s') (trace s' ++ [e])%list).

End Monad.

Declare Scope m_scope.
Delimit Scope m_scope with m.
Notation "x <- m ;; k" := (bind m (fun x => k))
  (at level 61, m at next level, right associativity) : m_scope.
Notation "m ;;; k" := (bind m (fun _ => k))
  (at level 61, right associativity) : m_scope.

(** ** The controller *)

Section Controller.
Context {W : Type} `{Collaborators W}.
Variable env : Environ.

Local Open Scope m_scope.

(** The package variable [repository]. *)
Definition repository : string := REPOSITORY env.

(** [for i, x := range l { body }], for a body that either returns from
    the enclosing function ([Some r]) or reaches its end ([None]), in
    which case the next element is visited. *)
Fixpoint range {A R} (body : nat -> A -> M W (option R))
         (i : nat) (l : list A) : M W (option R) :=
  match l with
  | [] => ret None
  | x :: rest =>
      r <- body i x ;;
      match r with
      | Some v => ret (Some v)
      | None => range body (S i) rest
      end
  end.

(** The loop of [imageAlreadyPresentInRepo] over the listing. *)
Fixpoint tagListed (list : list string) (tag : string) : bool :=
  match list with
  | [] => false
  | t :: rest => if String.eqb t tag then true else tagListed rest tag
  end.

(** [imageAlreadyPresentInRepo(registry, tag, opt)]. *)
Definition imageAlreadyPresentInRepo (registry tag : string)
           (opt : Authenticator) : M W bool :=
  emit (RemoteList registry) ;;;
  list <- ask (remoteList registry opt) ;;
  ret (tagListed list tag).

(** [getRegistryCredentials()]. *)
Definition getRegistryCredentials : result Authenticator :=
  let username := USERNAME env in
  let password := PASSWORD env in
  if (String.length username =? 0)%nat || (String.length password =? 0)%nat
  then Err (New "failed to fetch credentials")
  else Ok (mkAuth username password).

(** [processImage(imgName)]. *)
Definition processImage (imgName : string) : M W (result string) :=
  match ParseReference imgName with
  | Err err =>
      ret (Err (New ("error while parsing old image '" ++ imgName
                     ++ "' as reference. Error: '" ++ Error err ++ "'")))
  | Ok oldImageref =>
      match getRegistryCredentials with
      | Err err =>
          ret (Err (New ("error while getting private registry creadentials. Error: '"
                         ++ Error err ++ "'")))
      | Ok authenticator =>
          let opt := authenticator in
          emit (RemoteImage imgName) ;;;
          pulled <- ask (remoteImage oldImageref) ;;
          match pulled with
          | Err err => ret (Err err)
          | Ok img =>
              triple <- lift (retagImage repository imgName) ;;
              let '(registry, tag, newImage) := triple in
              match ParseReference newImage with
              | Err err =>
                  ret (Err (New ("error while parsing new image '" ++ imgName
                                 ++ "' as reference. Error: '" ++ Error err ++ "'")))
              | Ok newImageRef =>
                  present <- imageAlreadyPresentInRepo registry tag opt ;;
                  if negb present then
                    emit (RemoteWrite newImage) ;;;
                    err <- act (remoteWrite newImageRef img opt) ;;
                    match err with
                    | Some e =>
                        ret (Err (New ("error while pushing newly tagged image '"
                                       ++ RefString newImageRef
                                       ++ "' to registry. Error: '" ++ Error e ++ "'")))
                    | None => ret (Ok newImage)
                    end
                  else ret (Ok newImage)
              end
          end
      end
  end.

(** Reading through a pointer. *)
Definition deref {A} (p : option A) : Go A :=
  match p with
  | Some a => Ret a
  | None => Panic nilDereference
  end.

(** [containers[i].Image = img]. *)
Fixpoint setImage (containers : list Container) (i : nat) (img : string)
  : Go (list Container) :=
  match containers, i with
  | [], _ => Panic "index out of range"
  | c :: rest, O => Ret (mkContainer (Name c) img :: rest)
  | c :: rest, S j =>
      go_bind (setImage rest j img) (fun rest' => Ret (c :: rest'))
  end.

(** The body of the loop over the containers in [checkAndUpdateImage];
    [Some e] is [return e].  The assignment to [Containers[i].Image] goes
    through the pointer the lister handed out; the object so rewritten is
    the one passed to the update call, and it is carried by the
    [UpdateDeployment] / [UpdateDaemonSet] event. *)
Definition containerStep (key resourceType namespace : string)
           (dep : option Deployment) (daemonset : option DaemonSet)
           (i : nat) (cont : Container) : M W (option error) :=
  if imageNotPresent repository (Image cont) then
    emit (LogInfo "Processsing image") ;;;
    processed <- processImage (Image cont) ;;
    match processed with
    | Err err =>
        ret (Some (Some (New ("error in processing image for '" ++ key
                              ++ "'. ContainerName '" ++ Name cont
                              ++ "'. Error: '" ++ Error err ++ "'"))))
    | Ok img =>
        emit (LogInfo "Updating image in container spec for key, ") ;;;
        err <-
          (if resourceType =? "deployment" then
             d <- lift (deref dep) ;;
             cs <- lift (setImage (dep_Containers d) i img) ;;
             let d' := mkDeployment (dep_Namespace d) (dep_Name d)
                         (Replicas d) (ReadyReplicas d) cs in
             emit (UpdateDeployment namespace d') ;;;
             act (updateDeployment namespace d')
           else if resourceType =? "daemonset" then
             d <- lift (deref daemonset) ;;
             cs <- lift (setImage (ds_Containers d) i img) ;;
             let d' := mkDaemonSet (ds_Namespace d) (ds_Name d)
                         (DesiredNumberScheduled d) (NumberReady d) cs in
             emit (UpdateDaemonSet namespace d') ;;;
             act (updateDaemonSet namespace d')
           else ret None) ;;
        match err with
        | None =>
            if negb (IsConflict err) then
              emit (LogInfo "Updated image, ") ;;; ret (Some None)
            else ret (Some err)
        | Some _ => ret (Some err)
        end
    end
  else
    emit (LogInfo "Image is already present in registry for") ;;;
    ret (Some None).

(** [checkAndUpdateImage(ctx, key, resourceType, namespace, name)].
    [errs] is declared and never assigned, as in the source; the guard
    on it is kept. *)
Definition checkAndUpdateImage (key resourceType namespace name : string)
  : M W error :=
  let errs : error := None in
  emit (LogInfo "Updating image for resource, ") ;;;
  looked <-
    (if resourceType =? "deployment" then
       emit (ListerGet resourceType namespace name) ;;;
       r <- ask (getDeployment namespace name) ;;
       match r with
       | Ok d => ret (Some d, @None DaemonSet, @None error_value)
       | Err e => ret (None, None, Some e)
       end
     else if resourceType =? "daemonset" then
       emit (ListerGet resourceType namespace name) ;;;
       r <- ask (getDaemonSet namespace name) ;;
       match r with
       | Ok d => ret (@None Deployment, Some d, @None error_value)
       | Err e => ret (None, None, Some e)
       end
     else ret (None, None, None)) ;;
  let '(dep, daemonset, err) := looked in
  match errs with
  | Some _ =>
      if IsNotFound err then
        emit (HandleError ("'" ++ resourceType ++ "' '" ++ name
                           ++ "' in work queue no longer exists")) ;;;
        ret None
      else
        ret (Some (New ("error getting '" ++ resourceType ++ "'. error: "
                        ++ errText err)))
  | None =>
      checked <-
        (if resourceType =? "deployment" then
           b <- lift (isDeploymentReady dep) ;;
           if b then
             d <- lift (deref dep) ;;
             ret (inr (true, dep_Containers d))
           else ret (inl (New ("deployment '" ++ name ++ "' is not ready")))
         else if resourceType =? "daemonset" then
           b <- lift (isDaemonSetReady daemonset) ;;
           if b then
             d <- lift (deref daemonset) ;;
             ret (inr (true, ds_Containers d))
           else ret (inl (New ("daemonset '" ++ name ++ "' is not ready")))
         else ret (inr (false, []))) ;;
      match checked with
      | inl e => ret (Some e)
      | inr (ready, containers) =>
          returned <-
            (if ready : bool then
               range (containerStep key resourceType namespace dep daemonset)
                     0 containers
             else ret None) ;;
          match returned with
          | Some e => ret e
          | None =>
              ret (Some (New ("'" ++ resourceType ++ "' '" ++ name
                              ++ "' in namespace '" ++ namespace
                              ++ "'is not in ready state")))
          end
      end
  end.

(** The closure [processNext] of [runWorker]. *)
Definition processNext (obj : Item) : M W error :=
  defer (Done obj)
    match obj with
    | OtherItem repr =>
        emit (Forget obj) ;;;
        emit (HandleError ("expected string in workqueue but got " ++ repr)) ;;;
        ret None
    | StringItem key =>
        let parts := strings.Split key slash in
        if negb (List.length parts =? 3)%nat then
          emit (HandleError ("invalid resource key: " ++ key)) ;;;
          ret None
        else
          ns <- lift (index parts 1) ;;
          returned <-
            (if negb (ns =? "kube-system") then
               kind <- lift (index parts 0) ;;
               nm <- lift (index parts 2) ;;
               emit (LogInfo "Processing resource.") ;;;
               err <- checkAndUpdateImage key kind ns nm ;;
               match err with
               | Some e =>
                   emit (AddRateLimited key) ;;;
                   ret (Some (New ("error in updating image for controller '"
                                   ++ ns ++ "'. Error: " ++ Error e
                                   ++ ", Adding it again to workqueue")))
               | None => ret None
               end
             else ret None) ;;
          match returned with
          | Some e => ret (Some e)
          | None => emit (Forget obj) ;;; ret None
          end
    end.

(** The loop of [runWorker] over the items [Get] hands out before the
    queue reports shutdown. *)
Fixpoint runWorker (items : list Item) : M W unit :=
  match items with
  | [] => ret tt
  | res :: later =>
      err <- processNext res ;;
      match err with
      | Some e => emit (HandleError (Error e)) ;;; runWorker later
      | None => runWorker later
      end
  end.

End Controller.

(** ** An in-memory registry and cluster

    A small instance of the collaborators on which the controller can be
    run.  References follow [name.NewTag] of go-containerregistry: the tag
    is what follows the last colon unless that piece contains a slash, and
    a reference without tag denotes the tag [latest]; characters are not
    validated.  A push records the (repository, tag) pair; a listing
    returns the tags recorded for the repository. *)

Module Mem.

Record World := mkWorld {
  cacheDeployments : list Deployment;
  cacheDaemonSets : list DaemonSet;
  pushed : list (string * string);
  updateAnswer : error
}.

(** [strings.Join(elems, sep)]. *)
Fixpoint Join (elems : list string) (sep : string) : string :=
  match elems with
  | [] => ""
  | [e] => e
  | e :: rest => e ++ sep ++ Join rest sep
  end.

Definition DefaultTag : string := "latest".

Definition parseReference (name : string) : result (string * string) :=
  let parts := strings.Split name colon in
  let lastPart := last parts "" in
  let '(base, tag) :=
    if (1 <? List.length parts)%nat && negb (strings.Contains lastPart slash)
    then (Join (removelast parts) ":", lastPart)
    else (name, "") in
  let tag := if (String.length tag =? 0)%nat then DefaultTag else tag in
  if (String.length base =? 0)%nat
  then Err (New "a repository name must be specified")
  else Ok (base, tag).

Definition listTags (registry : string) (w : World) : list string :=
  map snd (filter (fun p => String.eqb (fst p) registry) (pushed w)).

Definition push (ref : string * string) (w : World) : World :=
  mkWorld (cacheDeployments w) (cacheDaemonSets w)
          (pushed w ++ [ref])%list (updateAnswer w).

Definition findDeployment (namespace name : string) (w : World)
  : result Deployment :=
  match find (fun d => String.eqb (dep_Namespace d) namespace
                       && String.eqb (dep_Name d) name)
             (cacheDeployments w) with
  | Some d => Ok d
  | None => Err (mkError ReasonNotFound ("deployments.apps " ++ name ++ " not found"))
  end.

Definition findDaemonSet (namespace name : string) (w : World)
  : result DaemonSet :=
  match find (fun d => String.eqb (ds_Namespace d) namespace
                       && String.eqb (ds_Name d) name)
             (cacheDaemonSets w) with
  | Some d => Ok d
  | None => Err (mkError ReasonNotFound ("daemonsets.apps " ++ name ++ " not found"))
  end.

#[global] Instance collaborators : Collaborators World := {|
  Reference := string * string;
  v1Image := string;
  ParseReference := parseReference;
  RefString := fun r => fst r ++ ":" ++ snd r;
  remoteImage := fun r _ => Ok (fst r ++ ":" ++ snd r);
  remoteList := fun registry _ w => listTags registry w;
  remoteWrite := fun r _ _ w => (push r w, None);
  getDeployment := findDeployment;
  getDaemonSet := findDaemonSet;
  updateDeployment := fun _ _ w => (w, updateAnswer w);
  updateDaemonSet := fun _ _ w => (w, updateAnswer w)
|}.

(** A configured process: destination prefix [backup], credentials set. *)
Definition env : Environ := mkEnviron "backup" "mirror" "secret".

Definition app (image : string) : Deployment :=
  mkDeployment "default" "app" 1 1 [mkContainer "app" image].

Definition cluster (deps : list Deployment) : State World :=
  mkState (mkWorld deps [] [] None) [].

End Mem.

(** ** The event router

    [RunController] registers, for each workload kind, a handler for add
    and update notifications and none for deletions.  The handlers compute
    the key with [cache.MetaNamespaceKeyFunc], which belongs to the
    informer library and is taken as a parameter: it returns a key and an
    error, and the handlers use the key whatever the error is. *)

Inductive RouterCall :=
| RouterHandleError (msg : string)
| QueueAdd (key : string).

Inductive Notification (Obj : Type) :=
| Added (obj : Obj)
| Updated (oldObj newObj : Obj)
| Deleted (obj : Obj).

Arguments Added {Obj} obj.
Arguments Updated {Obj} oldObj newObj.
Arguments Deleted {Obj} obj.

Section Router.
Variable Obj : Type.
Variable MetaNamespaceKeyFunc : Obj -> string * error.

(** [syncDeploymentImage(obj)]. *)
Definition syncDeploymentImage (obj : Obj) : list RouterCall :=
  let (key, err) := MetaNamespaceKeyFunc obj in
  (match err with
   | Some e => [RouterHandleError (Error e)]
   | None => []
   end ++ [QueueAdd ("deployment/" ++ key)])%list.

(** [syncDaemonsetImage(obj)]. *)
Definition syncDaemonsetImage (obj : Obj) : list RouterCall :=
  let (key, err) := MetaNamespaceKeyFunc obj in
  (match err with
   | Some e => [RouterHandleError (Error e)]
   | None => []
   end ++ [QueueAdd ("daemonset/" ++ key)])%list.

(** The [cache.ResourceEventHandlerFuncs] registered on the deployment
    informer: [AddFunc], [UpdateFunc] (which passes the new object on) and
    a nil [DeleteFunc]. *)
Definition deploymentHandler (n : Notification Obj) : list RouterCall :=
  match n with
  | Added obj => syncDeploymentImage obj
  | Updated _ newObj => syncDeploymentImage newObj
  | Deleted _ => []
  end.

(** The same on the daemonset informer. *)
Definition daemonsetHandler (n : Notification Obj) : list RouterCall :=
  match n with
  | Added obj => syncDaemonsetImage obj
  | Updated _ newObj => syncDaemonsetImage newObj
  | Deleted _ => []
  end.

End Router.

(** The keys a list of router calls puts on the queue. *)
Fixpoint addedKeys (calls : list RouterCall) : list string :=
  match calls with
  | [] => []
  | QueueAdd key :: rest => key :: addedKeys rest
  | RouterHandleError _ :: rest => addedKeys rest
  end.

(** ** Process start-up ([cmd/main.go])

    The client configuration comes from [rest.InClusterConfig] and, when
    that fails, from [clientcmd.BuildConfigFromFlags] on the kubeconfig
    under [HOME]; both, [filepath.Join] and [kubernetes.NewForConfig] are
    library calls and are parameters here.  The second component of a
    result is what was logged at error level. *)

Module cmd.
Section Start.
Variables Config Clientset : Type.
Variable InClusterConfig : result Config.
Variable HOME : string.
Variable Join : list string -> string.
Variable BuildConfigFromFlags : string -> string -> result Config.
Variable NewForConfig : Config -> result Clientset.

Definition newline : string := String (ascii_of_nat 10) EmptyString.

(** [GetClientConfig(ctxLogger)]. *)
Definition GetClientConfig : result Config * list string :=
  match InClusterConfig with
  | Ok config => (Ok config, [])
  | Err err1 =>
      let logged := ["Failed to create config. Error"] in
      let kubeconfig := Join [HOME; ".kube"; "config"] in
      match BuildConfigFromFlags "" kubeconfig with
      | Ok config => (Ok config, logged)
      | Err err =>
          (Err (New ("inClusterConfig as well as BuildConfigFromFlags Failed. Error in InClusterConfig: "
                     ++ Error err1 ++ newline
                     ++ "Error in BuildConfigFromFlags: " ++ Error err)),
           logged)
      end
  end.

(** [GetClientset(ctxLogger)]. *)
Definition GetClientset : result Clientset * list string :=
  match GetClientConfig with
  | (Err err, logged) => (Err err, logged)
  | (Ok config, logged) =>
      match NewForConfig config with
      | Err err =>
          (Err (New ("failed creating kubernetes clientset. Error: "
                     ++ Error err)), logged)
      | Ok clientset => (Ok clientset, logged)
      end
  end.

End Start.
End cmd.

(** ** Classes of calls, and what a computation may do *)

Definition isDone (e : Event) : bool :=
  match e with Done _ => true | _ => false end.

Definition isQueue (e : Event) : bool :=
  match e with
  | Forget _ | AddRateLimited _ | Done _ => true
  | _ => false
  end.

Definition isRegistry (e : Event) : bool :=
  match e with
  | RemoteImage _ | RemoteList _ | RemoteWrite _ => true
  | _ => false
  end.

(** The calls that are not queue operations. *)
Definition notQueue (e : Event) : bool := negb (isQueue e).

(** The calls that change something outside the process. *)
Definition isWrite (e : Event) : bool := isPush e || isUpdate e.

(** [issues P m]: from every state, [m] appends calls of class [P] to the
    trace and nothing else, and leaves the world as it was unless one of
    the appended calls is a write. *)
Definition issues {W A : Type} (P : Event -> bool) (m : M W A) : Prop :=
  forall s : State W,
    exists evs : list Event,
      trace (snd (m s)) = (trace s ++ evs)%list
      /\ forallb P evs = true
      /\ (existsb isWrite evs = false -> world (snd (m s)) = world s).


(** * Properties *)

(** ** Splitting and prefixes *)

Section Strings.
Import strings.

Lemma Split_nonempty (s : string) (sep : ascii) : Split s sep <> [].
Proof.
  destruct s as [|c rest]; simpl; [discriminate|].
  destruct (Ascii.eqb c sep); [discriminate|].
  destruct (Split rest sep); discriminate.
Qed.

Lemma Split_cons (s : string) (sep : ascii) :
  exists piece pieces, Split s sep = piece :: pieces.
Proof.
  destruct (Split s sep) as [|piece pieces] eqn:E.
  - now apply Split_nonempty in E.
  - eauto.
Qed.

(** A string without the separator is its only piece. *)
Lemma Split_without (s : string) (sep : ascii) :
  Contains s sep = false -> Split s sep = [s].
Proof.
  induction s as [|c rest IH]; simpl; [reflexivity|].
  intros Hc. apply orb_false_elim in Hc as [Hc Hrest].
  rewrite Hc, (IH Hrest). reflexivity.
Qed.

(** Splitting [a ++ sep ++ b], where [a] is free of the separator. *)
Lemma Split_app (a b : string) (sep : ascii) :
  Contains a sep = false ->
  Split (a ++ String sep b) sep = a :: Split b sep.
Proof.
  induction a as [|c rest IH]; simpl.
  - intros _. now rewrite Ascii.eqb_refl.
  - intros Hc. apply orb_false_elim in Hc as [Hc Hrest].
    rewrite Hc, (IH Hrest). reflexivity.
Qed.

(** No piece contains the separator. *)
Lemma Split_pieces (s : string) (sep : ascii) (piece : string) :
  In piece (Split s sep) -> Contains piece sep = false.
Proof.
  revert piece. induction s as [|c rest IH]; simpl; intros piece Hin.
  - destruct Hin as [<-|[]]. reflexivity.
  - destruct (Ascii.eqb c sep) eqn:Hc.
    + destruct Hin as [<-|Hin]; [reflexivity|now apply IH].
    + destruct (Split rest sep) as [|p ps] eqn:E.
      * destruct Hin as [<-|[]]. simpl. now rewrite Hc.
      * destruct Hin as [<-|Hin].
        -- simpl. rewrite Hc. simpl. apply IH. now left.
        -- apply IH. now right.
Qed.

(** A string with the separator has at least two pieces. *)
Lemma Split_with (s : string) (sep : ascii) :
  Contains s sep = true ->
  exists p0 p1 ps, Split s sep = p0 :: p1 :: ps.
Proof.
  induction s as [|c rest IH]; simpl; [discriminate|].
  destruct (Ascii.eqb c sep) eqn:Hc; simpl.
  - intros _. destruct (Split_cons rest sep) as (p & ps & ->). eauto.
  - intros Hrest. destruct (IH Hrest) as (p0 & p1 & ps & ->). eauto.
Qed.

Lemma append_assoc (a b c : string) : (a ++ b) ++ c = a ++ b ++ c.
Proof. induction a as [|x a IH]; simpl; [reflexivity | now rewrite IH]. Qed.

Lemma substring_0_0 (s : string) : substring 0 0 s = "".
Proof. now destruct s. Qed.

(** [HasPrefix] is the prefix relation on strings. *)
Lemma HasPrefix_spec (s prefix : string) :
  HasPrefix s prefix = true <-> exists rest, s = prefix ++ rest.
Proof.
  unfold HasPrefix. revert s.
  induction prefix as [|c p IH]; intros s.
  - simpl. rewrite substring_0_0. simpl. split; eauto.
  - destruct s as [|d s'].
    + simpl. split; [discriminate|]. intros [rest Hr]. discriminate.
    + change (String.length (String c p)) with (S (String.length p)).
      change (String.length (String d s')) with (S (String.length s')).
      change (substring 0 (S (String.length p)) (String d s'))
        with (String d (substring 0 (String.length p) s')).
      change (S (String.length p) <=? S (String.length s'))%nat
        with (String.length p <=? String.length s')%nat.
      simpl String.eqb.
      destruct (Ascii.eqb d c) eqn:Hdc.
      * apply Ascii.eqb_eq in Hdc. subst d. rewrite IH.
        split; intros [rest Hr]; exists rest; simpl in *; congruence.
      * rewrite andb_false_r. split; [discriminate|].
        intros [rest Hr]. simpl in Hr. injection Hr as Hd _.
        subst d. now rewrite Ascii.eqb_refl in Hdc.
Qed.

End Strings.

(** ** The image reference codec *)

(** [retagImage] is the composition of its three stages. *)
Lemma retagImage_stages (repository name : string) :
  retagImage repository name =
  go_bind (nameWithTag name) (fun imageNameWithTag =>
  go_bind (nameAndTag imageNameWithTag) (fun nt =>
  Ret (target repository nt))).
Proof. reflexivity. Qed.

Lemma retagImage_decompose (repository name : string) :
  retagImage repository name =
  go_bind (decompose name) (fun nt => Ret (target repository nt)).
Proof.
  rewrite retagImage_stages. unfold decompose.
  destruct (nameWithTag name); reflexivity.
Qed.

(** The first stage never panics: [image[1]] is read only from a slice of
    length two and [image[0]] exists because a split is never empty. *)
Lemma nameWithTag_total (name : string) :
  exists piece, nameWithTag name = Ret piece
                /\ In piece (strings.Split name slash).
Proof.
  unfold nameWithTag.
  destruct (Split_cons name slash) as (p0 & ps & ->).
  destruct ps as [|p1 [|p2 ps]]; simpl.
  - exists p0. split; [reflexivity | now left].
  - exists p1. split; [reflexivity | right; now left].
  - exists p0. split; [reflexivity | now left].
Qed.

(** The second stage never panics: [list[1]] is read only after
    [strings.Contains] has found a colon. *)
Lemma nameAndTag_total (imageNameWithTag : string) :
  exists nt, nameAndTag imageNameWithTag = Ret nt.
Proof.
  unfold nameAndTag.
  destruct (strings.Contains imageNameWithTag colon) eqn:Hc; [|eauto].
  destruct (Split_with _ _ Hc) as (p0 & p1 & ps & ->).
  simpl. eauto.
Qed.

Lemma retagImage_total (repository name : string) :
  exists r, retagImage repository name = Ret r.
Proof.
  rewrite retagImage_stages.
  destruct (nameWithTag_total name) as (piece & -> & _).
  destruct (nameAndTag_total piece) as (nt & Hnt).
  simpl. rewrite Hnt. simpl. eauto.
Qed.

(** A reference without slash is its own name-and-tag piece. *)
Lemma nameWithTag_bare (nt : string) :
  strings.Contains nt slash = false -> nameWithTag nt = Ret nt.
Proof.
  intros Hnt. unfold nameWithTag. now rewrite Split_without.
Qed.

(** Of a reference [registry/nt] the piece is [nt]. *)
Lemma nameWithTag_two (registry nt : string) :
  strings.Contains registry slash = false ->
  strings.Contains nt slash = false ->
  nameWithTag (registry ++ "/" ++ nt) = Ret nt.
Proof.
  intros Hr Hnt. unfold nameWithTag.
  change (registry ++ "/" ++ nt) with (registry ++ String slash nt).
  rewrite Split_app by assumption.
  now rewrite Split_without.
Qed.

(** With three pieces or more the piece is the first one. *)
Lemma nameWithTag_many (name first : string) (rest : list string) :
  strings.Split name slash = first :: rest ->
  2 <= List.length rest ->
  nameWithTag name = Ret first.
Proof.
  intros Hs Hlen. unfold nameWithTag. rewrite Hs.
  destruct rest as [|p1 [|p2 ps]]; simpl in *; try lia. reflexivity.
Qed.

Lemma nameAndTag_untagged (piece : string) :
  strings.Contains piece colon = false -> nameAndTag piece = Ret (piece, "").
Proof. intros Hc. unfold nameAndTag. now rewrite Hc. Qed.

Lemma Contains_app_sep (a b : string) (sep : ascii) :
  strings.Contains (a ++ String sep b) sep = true.
Proof.
  induction a as [|c a IH]; simpl.
  - now rewrite Ascii.eqb_refl.
  - rewrite IH. apply orb_true_r.
Qed.

Lemma nameAndTag_tagged (n t : string) :
  strings.Contains n colon = false ->
  nameAndTag (n ++ ":" ++ t) =
  Ret (n, match strings.Split t colon with p :: _ => p | [] => "" end).
Proof.
  intros Hn. unfold nameAndTag.
  change (n ++ ":" ++ t) with (n ++ String colon t).
  rewrite Contains_app_sep, Split_app by assumption.
  destruct (Split_cons t colon) as (p & ps & ->). reflexivity.
Qed.

(** C5. The already-mirrored check is exactly a prefix test: for every
    destination prefix and every image, [imageNotPresent] answers false if
    and only if the image begins with the prefix; it is the negation of
    [strings.HasPrefix]; with the empty prefix it answers false for every
    image.  It is a function of the two strings alone, so no call leaves
    the process. *)
Theorem imageNotPresent_prefix_test (repository image : string) :
  (imageNotPresent repository image = false
   <-> exists rest, image = repository ++ rest)
  /\ imageNotPresent repository image
     = negb (strings.HasPrefix image repository)
  /\ imageNotPresent "" image = false.
Proof.
  assert (Hneg : imageNotPresent repository image
                 = negb (strings.HasPrefix image repository)).
  { unfold imageNotPresent. destruct repository as [|c r].
    - simpl. unfold strings.HasPrefix. simpl.
      now rewrite substring_0_0.
    - simpl (String.length _ =? 0)%nat. cbv iota.
      now destruct (strings.HasPrefix image (String c r)). }
  split; [|split; [exact Hneg|reflexivity]].
  rewrite Hneg, negb_false_iff. apply HasPrefix_spec.
Qed.

(** C6. Both readiness predicates are the policy
    [desired == ready && desired > 0] over their two status counters, and
    the policy holds exactly when the counters agree and the desired count
    is positive; [isReady(3,3)], [isReady(0,0)] and [isReady(3,2)] are
    true, false and false. *)
Theorem readiness_policy :
  (forall d : Deployment,
      isDeploymentReady (Some d) = Ret (isReady (Replicas d) (ReadyReplicas d)))
  /\ (forall d : DaemonSet,
         isDaemonSetReady (Some d)
         = Ret (isReady (DesiredNumberScheduled d) (NumberReady d)))
  /\ (forall desired ready : Z,
         isReady desired ready = true <-> (desired = ready /\ 0 < desired)%Z)
  /\ isReady 3 3 = true /\ isReady 0 0 = false /\ isReady 3 2 = false.
Proof.
  repeat split; try reflexivity.
  - intros d. unfold isDeploymentReady, isReady.
    rewrite Z.gtb_ltb.
    now destruct ((Replicas d =? ReadyReplicas d)%Z && (0 <? Replicas d)%Z).
  - intros d. unfold isDaemonSetReady, isReady.
    rewrite Z.gtb_ltb.
    now destruct ((DesiredNumberScheduled d =? NumberReady d)%Z
                  && (0 <? DesiredNumberScheduled d)%Z).
  - unfold isReady in H. apply andb_prop in H as [H _]. now apply Z.eqb_eq.
  - unfold isReady in H. apply andb_prop in H as [_ H]. now apply Z.ltb_lt.
  - intros [He Hp]. unfold isReady.
    apply andb_true_intro. split; [now apply Z.eqb_eq | now apply Z.ltb_lt].
Qed.

(** C7. The mirror target is a function of the destination prefix and the
    reference string alone (the embedding of [retagImage] takes nothing
    else and touches no state), so two calls on one input agree; two
    references that [retagImage] decomposes into the same name and tag get
    the same (repository, tag, newImage) triple; in particular
    [registry1/nt] and [registry2/nt] get the triple of the bare [nt],
    whatever the two registry segments are. *)
Theorem retagImage_deterministic (repository : string) :
  (forall n1 n2 : string,
      decompose n1 = decompose n2 ->
      retagImage repository n1 = retagImage repository n2)
  /\ (forall registry1 registry2 nt : string,
         strings.Contains registry1 slash = false ->
         strings.Contains registry2 slash = false ->
         strings.Contains nt slash = false ->
         retagImage repository (registry1 ++ "/" ++ nt)
         = retagImage repository (registry2 ++ "/" ++ nt)
         /\ retagImage repository (registry1 ++ "/" ++ nt)
            = retagImage repository nt).
Proof.
  split.
  - intros n1 n2 Hd. rewrite !retagImage_decompose. now rewrite Hd.
  - intros registry1 registry2 nt H1 H2 Hnt.
    rewrite !retagImage_stages.
    rewrite (nameWithTag_two _ _ H1 Hnt), (nameWithTag_two _ _ H2 Hnt).
    rewrite (nameWithTag_bare _ Hnt). split; reflexivity.
Qed.

Lemma retagImage_deterministic_witness :
  decompose "quay.io/app:v1" = decompose "docker.io/app:v1"
  /\ retagImage "backup" "quay.io/app:v1" = retagImage "backup" "docker.io/app:v1"
  /\ retagImage "backup" "quay.io/app:v1" = retagImage "backup" "app:v1"
  /\ retagImage "backup" "app:v1" = Ret ("backup/app", "v1", "backup/app:v1").
Proof.
  split; [reflexivity|]. split.
  - apply (proj1 (retagImage_deterministic "backup")). reflexivity.
  - split.
    + apply (proj2 (retagImage_deterministic "backup") "quay.io" "docker.io" "app:v1");
        reflexivity.
    + reflexivity.
Defined.

(** C10. [retagImage] returns for every input string (it never panics).
    For a reference of three or more slash-separated pieces it works on the
    first piece: the result is that of the first piece alone, whatever the
    later pieces are.  When the first piece has no colon the destination is
    the prefix, a slash and that piece, without tag; when it is [n:t] with
    a non-empty [t] the destination is the prefix, a slash and [n:t], with
    tag [t].  The last piece plays no part. *)
Theorem retagImage_many_segments (repository : string) :
  (forall name : string, exists r, retagImage repository name = Ret r)
  /\ (forall (name first : string) (rest : list string),
         strings.Split name slash = first :: rest ->
         2 <= List.length rest ->
         retagImage repository name = retagImage repository first
         /\ (forall (name' : string) (rest' : list string),
                strings.Split name' slash = first :: rest' ->
                2 <= List.length rest' ->
                retagImage repository name' = retagImage repository name)
         /\ (strings.Contains first colon = false ->
             retagImage repository name
             = Ret (repository ++ "/" ++ first, "", repository ++ "/" ++ first))
         /\ (forall n t : string,
                first = n ++ ":" ++ t ->
                strings.Contains n colon = false ->
                strings.Contains t colon = false ->
                t <> "" ->
                retagImage repository name
                = Ret (repository ++ "/" ++ n, t,
                       repository ++ "/" ++ n ++ ":" ++ t))).
Proof.
  split; [apply retagImage_total|].
  intros name first rest Hs Hlen.
  assert (Hfirst : strings.Contains first slash = false).
  { apply (Split_pieces name). rewrite Hs. now left. }
  assert (Hname : retagImage repository name
                  = go_bind (nameAndTag first)
                            (fun nt => Ret (target repository nt))).
  { rewrite retagImage_stages, (nameWithTag_many _ Hs Hlen). reflexivity. }
  assert (Hself : retagImage repository first
                  = go_bind (nameAndTag first)
                            (fun nt => Ret (target repository nt))).
  { rewrite retagImage_stages, (nameWithTag_bare _ Hfirst). reflexivity. }
  split; [congruence|]. split; [|split].
  - intros name' rest' Hs' Hlen'.
    rewrite Hname, retagImage_stages, (nameWithTag_many _ Hs' Hlen').
    reflexivity.
  - intros Hc. rewrite Hname, (nameAndTag_untagged _ Hc). reflexivity.
  - intros n t -> Hn Ht Hne.
    rewrite Hname, (nameAndTag_tagged n t Hn), (Split_without _ _ Ht).
    simpl go_bind. unfold target. simpl fst. simpl snd.
    destruct t as [|c t]; [congruence|].
    simpl (0 <? _)%nat. cbv iota.
    now rewrite (append_assoc repository ("/" ++ n) (":" ++ String c t)).
Qed.

Lemma retagImage_many_segments_witness :
  strings.Split "registry.io/namespace/app:v1" slash
  = ["registry.io"; "namespace"; "app:v1"]
  /\ retagImage "backup" "registry.io/namespace/app:v1"
     = Ret ("backup/registry.io", "", "backup/registry.io").
Proof.
  split; [reflexivity|].
  destruct (proj2 (retagImage_many_segments "backup")
                  "registry.io/namespace/app:v1" "registry.io"
                  ["namespace"; "app:v1"])
    as (_ & _ & Hplain & _).
  - reflexivity.
  - simpl. lia.
  - apply Hplain. reflexivity.
Defined.

(** ** The mirroring protocol *)

Ltac run_m :=
  unfold bind, ret, emit, ask, act, lift, defer; simpl.

Lemma app_two {A} (l : list A) (a b : A) :
  ((l ++ [a]) ++ [b] = l ++ [a; b])%list.
Proof. now rewrite <- app_assoc. Qed.

Lemma count_app (p : Event -> bool) (t1 t2 : list Event) :
  count p (t1 ++ t2) = count p t1 + count p t2.
Proof. unfold count. now rewrite filter_app, length_app. Qed.

Ltac count_tac := rewrite ?count_app; unfold count; simpl; lia.

Section Mirroring.
Context {W : Type} `{Collaborators W}.
Variable env : Environ.

Lemma getRegistryCredentials_absent :
  USERNAME env = "" \/ PASSWORD env = "" ->
  getRegistryCredentials env = Err (New "failed to fetch credentials").
Proof.
  unfold getRegistryCredentials. intros [-> | ->]; simpl.
  - reflexivity.
  - now rewrite orb_true_r.
Qed.

Lemma getRegistryCredentials_present :
  USERNAME env <> "" -> PASSWORD env <> "" ->
  getRegistryCredentials env = Ok (mkAuth (USERNAME env) (PASSWORD env)).
Proof.
  unfold getRegistryCredentials. intros Hu Hp.
  destruct (USERNAME env); [congruence|].
  destruct (PASSWORD env); [congruence|]. reflexivity.
Qed.

(** [processImage] pushes at most once, and only after the listing of
    the repository computed by [retagImage] was found not to hold the
    tag computed by [retagImage]. *)
Lemma processImage_push_guard (imgName : string) (s : State W) :
  let s' := snd (processImage env imgName s) in
  count isPush (trace s') = count isPush (trace s)
  \/ (count isPush (trace s') = S (count isPush (trace s))
      /\ exists registry tag newImage opt,
           retagImage (REPOSITORY env) imgName = Ret (registry, tag, newImage)
           /\ getRegistryCredentials env = Ok opt
           /\ tagListed (remoteList registry opt (world s)) tag = false).
Proof.
  unfold processImage.
  destruct (ParseReference imgName) as [oldImageref|e]; [|now left].
  destruct (getRegistryCredentials env) as [opt|e] eqn:Hcred; [|now left].
  run_m.
  destruct (remoteImage oldImageref (world s)) as [img|e]; simpl;
    [|left; count_tac].
  unfold repository.
  destruct (retagImage (REPOSITORY env) imgName) as [[[registry tag] newImage]|msg]
    eqn:Hretag; simpl; [|left; count_tac].
  destruct (ParseReference newImage) as [newImageRef|e]; simpl;
    [|left; count_tac].
  unfold imageAlreadyPresentInRepo. run_m.
  destruct (tagListed (remoteList registry opt (world s)) tag) eqn:Hlisted; simpl.
  - left. count_tac.
  - right. split.
    + destruct (remoteWrite newImageRef img opt (world s)) as [w' [e|]]; simpl;
        count_tac.
    + exists registry, tag, newImage, opt. auto.
Qed.

(** A listing never holds the empty tag, so the check of an untagged
    target always misses. *)
Lemma tagListed_empty (list : list string) :
  ~ In "" list -> tagListed list "" = false.
Proof.
  induction list as [|t rest IH]; simpl; [reflexivity|].
  intros Hn. destruct t as [|c t]; simpl.
  - exfalso. apply Hn. now left.
  - apply IH. intros Hin. apply Hn. now right.
Qed.

End Mirroring.

(** C8. When the destination-registry username or password is empty,
    [getRegistryCredentials] returns the error "failed to fetch
    credentials" and every call of [processImage] returns an error, leaving
    the registry and the list of issued calls as they were: no push, and no
    other call either.  For an image name that parses, the error is the one
    that wraps the credentials error. *)
Theorem processImage_without_credentials
        {W : Type} `{Collaborators W} (env : Environ)
        (Habsent : USERNAME env = "" \/ PASSWORD env = "") :
  getRegistryCredentials env = Err (New "failed to fetch credentials")
  /\ forall (imgName : string) (s : State W),
      (exists e, processImage env imgName s = (Ret (Err e), s))
      /\ count isPush (trace (snd (processImage env imgName s)))
         = count isPush (trace s)
      /\ (forall ref, ParseReference imgName = Ok ref ->
                      processImage env imgName s
                      = (Ret (Err (New "error while getting private registry creadentials. Error: 'failed to fetch credentials'")), s)).
Proof.
  pose proof (getRegistryCredentials_absent env Habsent) as Hcred.
  split; [exact Hcred|].
  intros imgName s. unfold processImage. rewrite Hcred.
  destruct (ParseReference imgName) as [ref|e]; simpl.
  - split; [eexists; reflexivity|]. split; [reflexivity|].
    intros ref' _. reflexivity.
  - split; [eexists; reflexivity|]. split; [reflexivity|].
    intros ref' Hr. discriminate.
Qed.

Lemma processImage_without_credentials_witness :
  (USERNAME (mkEnviron "backup" "" "secret") = ""
   \/ PASSWORD (mkEnviron "backup" "" "secret") = "")
  /\ processImage (mkEnviron "backup" "" "secret") "myrepo/app:v1"
                  (Mem.cluster [])
     = (Ret (Err (New "error while getting private registry creadentials. Error: 'failed to fetch credentials'")),
        Mem.cluster []).
Proof.
  split; [now left|].
  apply (proj2 (processImage_without_credentials
                  (mkEnviron "backup" "" "secret") (or_introl eq_refl))
               "myrepo/app:v1" (Mem.cluster [])) with (ref := ("myrepo/app", "v1")).
  reflexivity.
Defined.

(** ** The reconciler *)

Section Reconcile.
Context {W : Type} `{Collaborators W}.
Variable env : Environ.

(** A failed lookup of a deployment leaves [dep] nil; the guard on [errs]
    does not fire and the readiness check reads through the nil
    pointer. *)
Lemma checkAndUpdateImage_deployment_lookup_error
      (key namespace name : string) (s : State W) (e : error_value) :
  getDeployment namespace name (world s) = Err e ->
  checkAndUpdateImage env key "deployment" namespace name s
  = (Panic nilDereference,
     mkState (world s)
             (trace s ++ [LogInfo "Updating image for resource, ";
                          ListerGet "deployment" namespace name])).
Proof.
  intros Hget. unfold checkAndUpdateImage. run_m. rewrite Hget. simpl.
  now rewrite app_two.
Qed.

Lemma checkAndUpdateImage_daemonset_lookup_error
      (key namespace name : string) (s : State W) (e : error_value) :
  getDaemonSet namespace name (world s) = Err e ->
  checkAndUpdateImage env key "daemonset" namespace name s
  = (Panic nilDereference,
     mkState (world s)
             (trace s ++ [LogInfo "Updating image for resource, ";
                          ListerGet "daemonset" namespace name])).
Proof.
  intros Hget. unfold checkAndUpdateImage. run_m. rewrite Hget. simpl.
  now rewrite app_two.
Qed.

Lemma range_cons {A R} (body : nat -> A -> M W (option R))
      (i : nat) (x : A) (rest : list A) (s : State W) :
  range body i (x :: rest) s
  = match body i x s with
    | (Ret (Some v), s') => (Ret (Some v), s')
    | (Ret None, s') => range body (S i) rest s'
    | (Panic msg, s') => (Panic msg, s')
    end.
Proof.
  simpl. unfold bind. destruct (body i x s) as [[[v|]|msg] s']; reflexivity.
Qed.

(** The loop over the containers returns in its first iteration on both
    branches: it never visits a second container. *)
Lemma range_containerStep_first
      (key resourceType namespace : string)
      (dep : option Deployment) (daemonset : option DaemonSet)
      (i : nat) (cont : Container) (rest : list Container) (s : State W) :
  (exists msg s',
      range (containerStep env key resourceType namespace dep daemonset)
            i (cont :: rest) s = (Panic msg, s'))
  \/ (exists e s',
         containerStep env key resourceType namespace dep daemonset i cont s
         = (Ret (Some e), s')
         /\ range (containerStep env key resourceType namespace dep daemonset)
                  i (cont :: rest) s = (Ret (Some e), s')).
Proof.
  rewrite range_cons.
  destruct (containerStep env key resourceType namespace dep daemonset i cont s)
    as [[[e|]|msg] s'] eqn:Hstep.
  - right. exists e, s'. split; reflexivity.
  - exfalso. revert Hstep. unfold containerStep.
    destruct (imageNotPresent (repository env) (Image cont)).
    + run_m.
      destruct (processImage env (Image cont) _) as [[[img|e]|msg] s1];
        simpl; try discriminate.
      destruct (resourceType =? "deployment").
      * destruct (deref dep) as [d|msg]; simpl; try discriminate.
        destruct (setImage (dep_Containers d) i img) as [cs|msg]; simpl;
          try discriminate.
        destruct (updateDeployment _ _ _) as [w' [e|]]; simpl; discriminate.
      * destruct (resourceType =? "daemonset").
        -- destruct (deref daemonset) as [d|msg]; simpl; try discriminate.
           destruct (setImage (ds_Containers d) i img) as [cs|msg]; simpl;
             try discriminate.
           destruct (updateDaemonSet _ _ _) as [w' [e|]]; simpl; discriminate.
        -- simpl. discriminate.
    + run_m. discriminate.
  - left. eauto.
Qed.

(** A ready deployment whose first container is already under the
    destination prefix: the pass ends there with nil, whatever the later
    containers are. *)
Lemma checkAndUpdateImage_first_mirrored
      (key namespace name : string) (s : State W)
      (d : Deployment) (cont : Container) (rest : list Container) :
  getDeployment namespace name (world s) = Ok d ->
  isReady (Replicas d) (ReadyReplicas d) = true ->
  dep_Containers d = cont :: rest ->
  imageNotPresent (REPOSITORY env) (Image cont) = false ->
  checkAndUpdateImage env key "deployment" namespace name s
  = (Ret None,
     mkState (world s)
             (trace s ++ [LogInfo "Updating image for resource, ";
                          ListerGet "deployment" namespace name;
                          LogInfo "Image is already present in registry for"])).
Proof.
  intros Hget Hready Hcs Hpresent.
  unfold checkAndUpdateImage. run_m. rewrite Hget. simpl.
  unfold isReady in Hready. rewrite <- Z.gtb_ltb in Hready.
  rewrite Hready. simpl. rewrite Hcs. simpl.
  unfold containerStep, repository. rewrite Hpresent. run_m.
  now rewrite <- !app_assoc.
Qed.

(** A key that does not split into three pieces: an error is reported and
    the item is marked done; nothing else happens. *)
Lemma processNext_malformed (key : string) (s : State W) :
  List.length (strings.Split key slash) <> 3 ->
  processNext env (StringItem key) s
  = (Ret None,
     mkState (world s)
             (trace s ++ [HandleError ("invalid resource key: " ++ key);
                          Done (StringItem key)])).
Proof.
  intros Hlen. unfold processNext, defer.
  apply Nat.eqb_neq in Hlen. rewrite Hlen. run_m.
  now rewrite app_two.
Qed.

(** A non-string item: forgotten, reported, done. *)
Lemma processNext_not_a_string (repr : string) (s : State W) :
  processNext env (OtherItem repr) s
  = (Ret None,
     mkState (world s)
             (trace s ++ [Forget (OtherItem repr);
                          HandleError ("expected string in workqueue but got " ++ repr);
                          Done (OtherItem repr)])).
Proof.
  unfold processNext. run_m. now rewrite <- !app_assoc.
Qed.

(** A well-formed key outside [kube-system]: the outcome of
    [checkAndUpdateImage] decides between [Forget] and
    [AddRateLimited]. *)
Lemma processNext_reconciled (key kind ns nm : string) (s : State W) :
  strings.Split key slash = [kind; ns; nm] ->
  (ns =? "kube-system") = false ->
  let started :=
    mkState (world s) (trace s ++ [LogInfo "Processing resource."]) in
  match checkAndUpdateImage env key kind ns nm started with
  | (Ret None, s') =>
      processNext env (StringItem key) s
      = (Ret None,
         mkState (world s')
                 (trace s' ++ [Forget (StringItem key); Done (StringItem key)]))
  | (Ret (Some e), s') =>
      processNext env (StringItem key) s
      = (Ret (Some (New ("error in updating image for controller '"
                         ++ ns ++ "'. Error: " ++ Error e
                         ++ ", Adding it again to workqueue"))),
         mkState (world s')
                 (trace s' ++ [AddRateLimited key; Done (StringItem key)]))
  | (Panic msg, s') =>
      processNext env (StringItem key) s
      = (Panic msg,
         mkState (world s') (trace s' ++ [Done (StringItem key)]))
  end.
Proof.
  intros Hkey Hns started. unfold processNext, defer.
  rewrite Hkey. unfold bind, lift, emit, ret.
  cbn [List.length Nat.eqb negb index nth_error world trace].
  rewrite Hns. cbn [negb]. fold started.
  destruct (checkAndUpdateImage env key kind ns nm started)
    as [[[e|]|msg] s']; cbn [world trace]; try reflexivity;
    now rewrite app_two.
Qed.

End Reconcile.

(** A ready deployment whose first container needs mirroring, when the
    mirroring and the update succeed: one update call, carrying the object
    with the image of container 0 replaced and the later containers as
    they were. *)
Lemma checkAndUpdateImage_first_rewritten
      {W : Type} `{Collaborators W} (env : Environ)
      (key namespace name img : string) (s s2 : State W) (w3 : W)
      (d : Deployment) (cont : Container) (rest : list Container) :
  getDeployment namespace name (world s) = Ok d ->
  isReady (Replicas d) (ReadyReplicas d) = true ->
  dep_Containers d = cont :: rest ->
  imageNotPresent (REPOSITORY env) (Image cont) = true ->
  processImage env (Image cont)
    (mkState (world s)
             (trace s ++ [LogInfo "Updating image for resource, ";
                          ListerGet "deployment" namespace name;
                          LogInfo "Processsing image"]))
  = (Ret (Ok img), s2) ->
  let d' := mkDeployment (dep_Namespace d) (dep_Name d) (Replicas d)
                         (ReadyReplicas d)
                         (mkContainer (Name cont) img :: rest) in
  updateDeployment namespace d' (world s2) = (w3, None) ->
  checkAndUpdateImage env key "deployment" namespace name s
  = (Ret None,
     mkState w3
             (trace s2 ++ [LogInfo "Updating image in container spec for key, ";
                           UpdateDeployment namespace d';
                           LogInfo "Updated image, "])).
Proof.
  intros Hget Hready Hcs Hneeds Hprocess d' Hupdate.
  unfold checkAndUpdateImage. run_m. rewrite Hget. simpl.
  unfold isReady in Hready. rewrite <- Z.gtb_ltb in Hready.
  rewrite Hready. simpl. rewrite Hcs. simpl.
  unfold containerStep, repository. rewrite Hneeds. run_m.
  rewrite <- !app_assoc. simpl app. rewrite Hprocess. simpl.
  rewrite Hcs. simpl. fold d'. rewrite Hupdate. simpl.
  now rewrite <- !app_assoc.
Qed.

(** An untagged target is pushed on every call: the listing is searched
    for the empty tag, which no listing holds. *)
Lemma processImage_untagged_pushes
      {W : Type} `{Collaborators W} (env : Environ)
      (imgName registry newImage : string) (s : State W)
      (ref newRef : Reference) (img : v1Image) :
  USERNAME env <> "" -> PASSWORD env <> "" ->
  ParseReference imgName = Ok ref ->
  remoteImage ref (world s) = Ok img ->
  retagImage (REPOSITORY env) imgName = Ret (registry, "", newImage) ->
  ParseReference newImage = Ok newRef ->
  ~ In "" (remoteList registry (mkAuth (USERNAME env) (PASSWORD env)) (world s)) ->
  count isPush (trace (snd (processImage env imgName s)))
  = S (count isPush (trace s)).
Proof.
  intros Hu Hp Href Himg Hretag Hnew Hlist.
  unfold processImage.
  rewrite Href, (getRegistryCredentials_present env Hu Hp).
  run_m. rewrite Himg. simpl. unfold repository. rewrite Hretag. simpl.
  rewrite Hnew. unfold imageAlreadyPresentInRepo. run_m.
  rewrite (tagListed_empty _ Hlist). simpl.
  destruct (remoteWrite newRef img _ (world s)) as [w' [e|]]; simpl; count_tac.
Qed.

(** A tagged image on the in-memory registry: the second call finds the
    tag listed and does not push. *)
Example processImage_tagged_twice :
  let s1 := snd (processImage Mem.env "myrepo/app:v1" (Mem.cluster [])) in
  let s2 := snd (processImage Mem.env "myrepo/app:v1" s1) in
  trace s2 = [RemoteImage "myrepo/app:v1"; RemoteList "backup/app";
              RemoteWrite "backup/app:v1";
              RemoteImage "myrepo/app:v1"; RemoteList "backup/app"]
  /\ count isPush (trace s2) = 1.
Proof. split; reflexivity. Qed.

(** The end-to-end example of the design document: one container
    [myrepo/app:v1] in namespace [default], prefix [backup], ready. *)
Example reconcile_end_to_end :
  processNext Mem.env (StringItem "deployment/default/app")
              (Mem.cluster [Mem.app "myrepo/app:v1"])
  = (Ret None,
     mkState (Mem.mkWorld [Mem.app "myrepo/app:v1"] [] [("backup/app", "v1")] None)
             [LogInfo "Processing resource.";
              LogInfo "Updating image for resource, ";
              ListerGet "deployment" "default" "app";
              LogInfo "Processsing image";
              RemoteImage "myrepo/app:v1";
              RemoteList "backup/app";
              RemoteWrite "backup/app:v1";
              LogInfo "Updating image in container spec for key, ";
              UpdateDeployment "default" (Mem.app "backup/app:v1");
              LogInfo "Updated image, ";
              Forget (StringItem "deployment/default/app");
              Done (StringItem "deployment/default/app")]).
Proof. reflexivity. Qed.

(** ** The claims on the protocol and the reconciler *)

(** C1. The claim asks that two calls of [processImage] on one source
    reference issue exactly one push.  On the untagged reference [nginx],
    with credentials set and an empty destination registry, the first call
    pushes [backup/nginx], after which the listing of [backup/nginx] holds
    the tag [latest]; the second call searches that listing for the empty
    tag computed by [retagImage], misses, and pushes again: two pushes. *)
Theorem processImage_untagged_pushes_twice :
  let s1 := snd (processImage Mem.env "nginx" (Mem.cluster [])) in
  let s2 := snd (processImage Mem.env "nginx" s1) in
  retagImage "backup" "nginx" = Ret ("backup/nginx", "", "backup/nginx")
  /\ fst (processImage Mem.env "nginx" (Mem.cluster [])) = Ret (Ok "backup/nginx")
  /\ trace s1 = [RemoteImage "nginx"; RemoteList "backup/nginx";
                 RemoteWrite "backup/nginx"]
  /\ remoteList "backup/nginx" (mkAuth "mirror" "secret") (world s1) = ["latest"]
  /\ fst (processImage Mem.env "nginx" s1) = Ret (Ok "backup/nginx")
  /\ trace s2 = (trace s1 ++ [RemoteImage "nginx"; RemoteList "backup/nginx";
                              RemoteWrite "backup/nginx"])%list
  /\ count isPush (trace s2) = 2.
Proof. repeat split; reflexivity. Qed.

(** C2. The claim asks that the pass mirrors the first container, in index
    order, whose image lacks the destination prefix.  On a ready deployment
    with containers [backup/app:v1] and [docker.io/envoy:v2] and prefix
    [backup], the second container lacks the prefix, yet the pass returns
    nil after looking at the first one alone: no pull, no push, no update
    call. *)
Theorem checkAndUpdateImage_skips_later_containers :
  let d := mkDeployment "default" "app" 1 1
             [mkContainer "app" "backup/app:v1";
              mkContainer "envoy" "docker.io/envoy:v2"] in
  let s := Mem.cluster [d] in
  isDeploymentReady (Some d) = Ret true
  /\ imageNotPresent "backup" "docker.io/envoy:v2" = true
  /\ checkAndUpdateImage Mem.env "deployment/default/app"
                         "deployment" "default" "app" s
     = (Ret None,
        mkState (world s)
                [LogInfo "Updating image for resource, ";
                 ListerGet "deployment" "default" "app";
                 LogInfo "Image is already present in registry for"])
  /\ count isNetwork
           (trace (snd (checkAndUpdateImage Mem.env "deployment/default/app"
                                            "deployment" "default" "app" s)))
     = 0.
Proof. repeat split; reflexivity. Qed.

(** C3. The claim asks that a lookup answering NotFound makes
    [checkAndUpdateImage] return nil.  On an empty cache the lookup of
    [default/app] answers NotFound, the guard on the never-assigned [errs]
    is passed over, and the readiness check dereferences the nil
    deployment: the call panics instead of returning, and the worker
    reaches neither [Forget] nor [AddRateLimited]; only the deferred
    [Done] runs. *)
Theorem checkAndUpdateImage_not_found_panics :
  let s := Mem.cluster [] in
  let key := "deployment/default/app" in
  IsNotFound (match getDeployment "default" "app" (world s) with
              | Err e => Some e
              | Ok _ => None
              end) = true
  /\ checkAndUpdateImage Mem.env key "deployment" "default" "app" s
     = (Panic nilDereference,
        mkState (world s)
                [LogInfo "Updating image for resource, ";
                 ListerGet "deployment" "default" "app"])
  /\ processNext Mem.env (StringItem key) s
     = (Panic nilDereference,
        mkState (world s)
                [LogInfo "Processing resource.";
                 LogInfo "Updating image for resource, ";
                 ListerGet "deployment" "default" "app";
                 Done (StringItem key)]).
Proof. repeat split; reflexivity. Qed.

(** C4. For every key that splits into (kind, [kube-system], name) the
    worker returns nil having issued two calls only, [Forget] and the
    deferred [Done]: [checkAndUpdateImage] is not entered, so there is no
    lookup, readiness check, mirroring or update, and the world is as it
    was.  The worker loop over that single item issues the same two
    calls. *)
Theorem processNext_kube_system
        {W : Type} `{Collaborators W} (env : Environ)
        (key kind name : string) (s : State W)
        (Hkey : strings.Split key slash = [kind; "kube-system"; name]) :
  processNext env (StringItem key) s
  = (Ret None,
     mkState (world s)
             (trace s ++ [Forget (StringItem key); Done (StringItem key)]))
  /\ runWorker env [StringItem key] s
     = (Ret tt,
        mkState (world s)
                (trace s ++ [Forget (StringItem key); Done (StringItem key)])).
Proof.
  assert (Hp : processNext env (StringItem key) s
               = (Ret None,
                  mkState (world s)
                          (trace s ++ [Forget (StringItem key);
                                       Done (StringItem key)]))).
  { unfold processNext, defer. rewrite Hkey.
    unfold bind, lift, emit, ret.
    cbn [List.length Nat.eqb negb index nth_error world trace String.eqb
         Ascii.eqb Bool.eqb].
    now rewrite app_two. }
  split; [exact Hp|].
  simpl runWorker. unfold bind. now rewrite Hp.
Qed.

Lemma processNext_kube_system_witness :
  strings.Split "deployment/kube-system/coredns" slash
  = ["deployment"; "kube-system"; "coredns"]
  /\ processNext Mem.env (StringItem "deployment/kube-system/coredns")
                 (Mem.cluster [Mem.app "myrepo/app:v1"])
     = (Ret None,
        mkState (world (Mem.cluster [Mem.app "myrepo/app:v1"]))
                [Forget (StringItem "deployment/kube-system/coredns");
                 Done (StringItem "deployment/kube-system/coredns")]).
Proof.
  split; [reflexivity|].
  apply (proj1 (processNext_kube_system
                  Mem.env "deployment/kube-system/coredns"
                  (Mem.cluster [Mem.app "myrepo/app:v1"]) eq_refl)).
Defined.

(** C9. The claim asks that every terminal outcome, a malformed key
    included, calls [Forget].  On the key [deployment/], which splits into
    two pieces, the worker reports the invalid key and returns nil; the
    only queue call is the deferred [Done]: the key is neither forgotten
    nor requeued. *)
Theorem processNext_malformed_key_not_forgotten
        {W : Type} `{Collaborators W} (env : Environ) (s : State W) :
  let after := snd (processNext env (StringItem "deployment/") s) in
  processNext env (StringItem "deployment/") s
  = (Ret None,
     mkState (world s)
             (trace s ++ [HandleError "invalid resource key: deployment/";
                          Done (StringItem "deployment/")]))
  /\ count isForget (trace after) = count isForget (trace s)
  /\ count isAddRateLimited (trace after) = count isAddRateLimited (trace s).
Proof.
  intros after. subst after.
  rewrite processNext_malformed by (simpl; lia).
  repeat split; simpl; count_tac.
Qed.

(** * Further properties of the controller *)

(** ** What a computation may issue *)

Section Issues.
Context {W : Type}.

Lemma issues_ret {A} (P : Event -> bool) (a : A) : issues (W:=W) P (ret a).
Proof.
intros s. exists []. simpl. rewrite app_nil_r. auto.
Qed.

Lemma issues_lift {A} (P : Event -> bool) (g : Go A) :
  issues (W:=W) P (lift g).
Proof.
intros s. exists []. simpl. rewrite app_nil_r. auto.
Qed.

Lemma issues_ask {A} (P : Event -> bool) (f : W -> A) : issues P (ask f).
Proof.
intros s. exists []. simpl. rewrite app_nil_r. auto.
Qed.

Lemma issues_emit (P : Event -> bool) (e : Event) :
  P e = true -> issues (W:=W) P (emit e).
Proof.
intros He s. exists [e]. simpl. rewrite He. auto.
Qed.

Lemma issues_bind {A B} (P : Event -> bool) (m : M W A) (k : A -> M W B) :
  issues P m -> (forall a, issues P (k a)) -> issues P (bind m k).
Proof.
intros Hm Hk s. unfold bind.
destruct (Hm s) as (evs1 & Ht1 & Hp1 & Hw1).
destruct (m s) as [[a|msg] s1]; simpl in *.
- destruct (Hk a s1) as (evs2 & Ht2 & Hp2 & Hw2).
  exists (evs1 ++ evs2)%list.
  rewrite Ht2, Ht1, app_assoc, forallb_app, Hp1, Hp2, existsb_app.
  repeat split. intros Hnone. apply orb_false_elim in Hnone as [H1 H2].
  now rewrite (Hw2 H2), (Hw1 H1).
- exists evs1. auto.
Qed.

(** A write announced by its event. *)
Lemma issues_write {A} (P : Event -> bool) (e : Event) (f : W -> W * A) :
  P e = true -> isWrite e = true ->
  issues P (bind (emit e) (fun _ => act f)).
Proof.
intros He Hw s. exists [e]. unfold bind, emit, act. simpl.
destruct (f (world s)) as [w' a]. simpl. rewrite He, Hw. simpl.
repeat split. discriminate.
Qed.

Lemma issues_write_bind {A B} (P : Event -> bool) (e : Event)
      (f : W -> W * A) (k : A -> M W B) :
  P e = true -> isWrite e = true -> (forall a, issues P (k a)) ->
  issues P (bind (emit e) (fun _ => bind (act f) k)).
Proof.
intros He Hw Hk s. unfold bind at 1 2. unfold emit, act. simpl.
destruct (f (world s)) as [w' a]. simpl.
destruct (Hk a (mkState w' (trace s ++ [e])%list)) as (evs & Ht & Hp & _).
simpl in Ht. exists (e :: evs). rewrite Ht, <- app_assoc. simpl.
rewrite He, Hp. unfold isWrite in Hw |- *. rewrite Hw. simpl.
repeat split. discriminate.
Qed.

Lemma issues_weaken {A} (P Q : Event -> bool) (m : M W A) :
  (forall e, P e = true -> Q e = true) -> issues P m -> issues Q m.
Proof.
intros HPQ Hm s. destruct (Hm s) as (evs & Ht & Hp & Hw).
exists evs. repeat split; auto.
rewrite forallb_forall in *. auto.
Qed.

Lemma issues_defer {A} (P : Event -> bool) (e : Event) (m : M W A) :
  P e = true -> issues P m -> issues P (defer e m).
Proof.
intros He Hm s. destruct (Hm s) as (evs & Ht & Hp & Hw).
unfold defer. destruct (m s) as [r s']. simpl in *.
exists (evs ++ [e])%list.
rewrite Ht, app_assoc, forallb_app, Hp, existsb_app. simpl. rewrite He.
repeat split. intros Hnone. apply orb_false_elim in Hnone as [H1 _]. auto.
Qed.

Lemma issues_range {A R} (P : Event -> bool)
      (body : nat -> A -> M W (option R)) (l : list A) :
  (forall i x, issues P (body i x)) ->
  forall i, issues P (range body i l).
Proof.
intros Hbody. induction l as [|x rest IH]; intros i; simpl.
- apply issues_ret.
- apply issues_bind; [apply Hbody|].
  intros [v|]; [apply issues_ret | apply IH].
Qed.

(** Calls of a class that the computation does not issue keep their
    count. *)
Lemma issues_count {A} (P q : Event -> bool) (m : M W A) (s : State W) :
  issues P m ->
  (forall e, P e = true -> q e = false) ->
  count q (trace (snd (m s))) = count q (trace s).
Proof.
intros Hm Hq. destruct (Hm s) as (evs & Ht & Hp & _).
rewrite Ht, count_app.
assert (Hz : count q evs = 0).
{ clear Ht. unfold count. rewrite forallb_forall in Hp.
  induction evs as [|e evs IH]; [reflexivity|]. simpl.
  rewrite (Hq e) by (apply Hp; now left).
  apply IH. intros x Hx. apply Hp. now right. }
lia.
Qed.

End Issues.

Ltac issues_step :=
  match goal with
  | |- issues _ (ret _) => apply issues_ret
  | |- issues _ (lift _) => apply issues_lift
  | |- issues _ (ask _) => apply issues_ask
  | |- issues _ (emit _) => apply issues_emit; reflexivity
  | |- issues _ (bind (emit _) (fun _ => act _)) =>
      apply issues_write; reflexivity
  | |- issues _ (bind (emit _) (fun _ => bind (act _) _)) =>
      apply issues_write_bind; [reflexivity | reflexivity | intros ?]
  | |- issues _ (bind _ _) => apply issues_bind; [|intros ?]
  | |- issues _ (match ?x with _ => _ end) => destruct x
  end.

Section Discipline.
Context {W : Type} `{Collaborators W}.
Variable env : Environ.

Lemma imageAlreadyPresentInRepo_issues (registry tag : string)
      (opt : Authenticator) :
  issues isRegistry (imageAlreadyPresentInRepo registry tag opt).
Proof. unfold imageAlreadyPresentInRepo. repeat issues_step. Qed.

Lemma processImage_issues (imgName : string) :
  issues isRegistry (processImage env imgName).
Proof.
unfold processImage.
destruct (ParseReference imgName); [|apply issues_ret].
destruct (getRegistryCredentials env); [|apply issues_ret].
do 3 issues_step; [|apply issues_ret].
do 3 issues_step.
destruct (ParseReference _); [|apply issues_ret].
apply issues_bind; [apply imageAlreadyPresentInRepo_issues|].
intros present. destruct present; simpl; [apply issues_ret|].
repeat issues_step.
Qed.

End Discipline.

(** ** The image helpers, continued *)

Lemma Contains_app (a b : string) (c : ascii) :
  strings.Contains (a ++ b) c = strings.Contains a c || strings.Contains b c.
Proof.
induction a as [|x a IH]; simpl; [reflexivity|].
now rewrite IH, orb_assoc.
Qed.

(** The pieces of a string free of [c] are free of [c]. *)
Lemma Split_pieces_free (s : string) (sep c : ascii) (piece : string) :
  strings.Contains s c = false ->
  In piece (strings.Split s sep) -> strings.Contains piece c = false.
Proof.
revert piece. induction s as [|x rest IH]; simpl; intros piece Hc Hin.
- destruct Hin as [<-|[]]. reflexivity.
- apply orb_false_elim in Hc as [Hx Hrest].
  destruct (Ascii.eqb x sep).
  + destruct Hin as [<-|Hin]; [reflexivity | now apply IH].
  + destruct (strings.Split rest sep) as [|p ps] eqn:E.
    * destruct Hin as [<-|[]]. simpl. now rewrite Hx.
    * destruct Hin as [<-|Hin].
      -- simpl. rewrite Hx. simpl. apply IH; [assumption | now left].
      -- apply IH; [assumption | now right].
Qed.

Lemma tagListed_In (list : list string) (tag : string) :
  tagListed list tag = true <-> In tag list.
Proof.
induction list as [|t rest IH]; simpl.
- split; [discriminate | tauto].
- destruct (String.eqb t tag) eqn:E.
  + apply String.eqb_eq in E. split; auto.
  + apply String.eqb_neq in E. rewrite IH. split; [auto|].
    intros [Heq|Hin]; [congruence | assumption].
Qed.

Lemma imageNotPresent_prefixed (repository rest : string) :
  imageNotPresent repository (repository ++ rest) = false.
Proof.
unfold imageNotPresent.
destruct (String.length repository =? 0)%nat; [reflexivity|].
assert (Hp : strings.HasPrefix (repository ++ rest) repository = true)
  by (apply HasPrefix_spec; eauto).
now rewrite Hp.
Qed.

(** X1. Shape of the mirror target.  For every prefix and every reference,
    [retagImage] returns the repository [prefix/n] and a tag [t] where
    neither [n] nor [t] holds a slash or a colon, and the new image is
    [prefix/n] when [t] is empty and [prefix/n:t] otherwise: the mirrored
    name is always one flat component under the prefix. *)
Theorem retagImage_shape (repository name : string) :
  exists n t : string,
    retagImage repository name
    = Ret (repository ++ "/" ++ n, t,
           if (String.length t =? 0)%nat then repository ++ "/" ++ n
           else repository ++ "/" ++ n ++ ":" ++ t)
    /\ strings.Contains n slash = false
    /\ strings.Contains n colon = false
    /\ strings.Contains t slash = false
    /\ strings.Contains t colon = false.
Proof.
rewrite retagImage_stages.
destruct (nameWithTag_total name) as (piece & -> & Hin).
apply Split_pieces in Hin. simpl go_bind. unfold nameAndTag.
destruct (strings.Contains piece colon) eqn:Hc.
- destruct (Split_with _ _ Hc) as (p0 & p1 & ps & Hs). rewrite Hs. simpl.
  exists p0, p1.
  assert (H0 : In p0 (strings.Split piece colon)) by (rewrite Hs; now left).
  assert (H1 : In p1 (strings.Split piece colon))
    by (rewrite Hs; right; now left).
  repeat split;
    try (eapply Split_pieces; eassumption);
    try (eapply Split_pieces_free; eassumption).
  unfold target. simpl fst. simpl snd.
  destruct p1 as [|c p1]; simpl (0 <? _)%nat; simpl (_ =? 0)%nat; cbv iota;
    [reflexivity|].
  now rewrite (append_assoc repository ("/" ++ p0) (":" ++ String c p1)).
- exists piece, "". simpl. repeat split; assumption.
Qed.

(** X2. The two-segment design case.  For a registry segment, a name and a
    non-empty tag that hold no slash and (name, tag) no colon, the
    reference [registry/name:tag] is mirrored to repository [prefix/name],
    tag [tag], image [prefix/name:tag]; without tag, [registry/name] is
    mirrored to [prefix/name] with the empty tag. *)
Theorem retagImage_two_segments (repository registry n t : string) :
  strings.Contains registry slash = false ->
  strings.Contains n slash = false ->
  strings.Contains n colon = false ->
  strings.Contains t slash = false ->
  strings.Contains t colon = false ->
  t <> "" ->
  retagImage repository (registry ++ "/" ++ n ++ ":" ++ t)
  = Ret (repository ++ "/" ++ n, t, repository ++ "/" ++ n ++ ":" ++ t)
  /\ retagImage repository (registry ++ "/" ++ n)
     = Ret (repository ++ "/" ++ n, "", repository ++ "/" ++ n).
Proof.
intros Hr Hns Hnc Hts Htc Hne. split.
- assert (Hnt : strings.Contains (n ++ ":" ++ t) slash = false).
  { rewrite Contains_app, Hns. simpl. exact Hts. }
  rewrite retagImage_stages, (nameWithTag_two _ _ Hr Hnt).
  cbn [go_bind]. rewrite (nameAndTag_tagged n t Hnc), (Split_without _ _ Htc).
  cbn [go_bind]. unfold target. simpl fst. simpl snd.
  destruct t as [|c t]; [congruence|]. simpl (0 <? _)%nat. cbv iota.
  now rewrite (append_assoc repository ("/" ++ n) (":" ++ String c t)).
- rewrite retagImage_stages, (nameWithTag_two _ _ Hr Hns).
  cbn [go_bind]. now rewrite (nameAndTag_untagged _ Hnc).
Qed.

Lemma retagImage_two_segments_witness :
  retagImage "backup" "myrepo/app:v1" = Ret ("backup/app", "v1", "backup/app:v1")
  /\ retagImage "backup" "myrepo/app" = Ret ("backup/app", "", "backup/app").
Proof.
apply (@retagImage_two_segments "backup" "myrepo" "app" "v1");
  try reflexivity. discriminate.
Defined.

(** ** The mirroring protocol, continued *)

(** X3. [imageAlreadyPresentInRepo] answers true exactly when the tag is
    in the listing of the repository; it issues one listing call and
    leaves the world as it was. *)
Theorem imageAlreadyPresentInRepo_listing
        {W : Type} `{Collaborators W}
        (registry tag : string) (opt : Authenticator) (s : State W) :
  exists b : bool,
    imageAlreadyPresentInRepo registry tag opt s
    = (Ret b, mkState (world s) (trace s ++ [RemoteList registry]))
    /\ (b = true <-> In tag (remoteList registry opt (world s))).
Proof.
exists (tagListed (remoteList registry opt (world s)) tag).
split; [reflexivity | apply tagListed_In].
Qed.

Lemma registry_no_push_no_write (evs : list Event) :
  forallb isRegistry evs = true -> count isPush evs = 0 ->
  existsb isWrite evs = false.
Proof.
induction evs as [|e evs IH]; [reflexivity|].
unfold count. simpl. intros Hr Hc. apply andb_prop in Hr as [He Hr].
unfold isWrite at 1.
destruct e; simpl in *; try discriminate; apply IH; assumption.
Qed.

(** X4. Push discipline of [processImage].  Whatever the registry
    answers, a call appends registry calls only (pull, listing, push) to
    the trace, among them at most one push; without a push the world is
    unchanged; and a push happens only after the listing of the repository
    computed by [retagImage] was found without the tag computed by
    [retagImage], with credentials present. *)
Theorem processImage_discipline
        {W : Type} `{Collaborators W} (env : Environ)
        (imgName : string) (s : State W) :
  exists evs : list Event,
    trace (snd (processImage env imgName s)) = (trace s ++ evs)%list
    /\ forallb isRegistry evs = true
    /\ count isPush evs <= 1
    /\ (count isPush evs = 0 ->
        world (snd (processImage env imgName s)) = world s)
    /\ (count isPush evs = 1 ->
        exists registry tag newImage opt,
          retagImage (REPOSITORY env) imgName = Ret (registry, tag, newImage)
          /\ getRegistryCredentials env = Ok opt
          /\ ~ In tag (remoteList registry opt (world s))).
Proof.
destruct (processImage_issues env imgName s) as (evs & Ht & Hp & Hw).
exists evs. split; [exact Ht|]. split; [exact Hp|].
pose proof (processImage_push_guard env imgName s) as Hguard.
cbv zeta in Hguard. rewrite Ht, count_app in Hguard.
split; [|split].
- destruct Hguard as [Hg|[Hg _]]; lia.
- intros Hz. apply Hw. now apply registry_no_push_no_write.
- intros Hone. destruct Hguard as [Hg|[_ Hg]]; [lia|].
  destruct Hg as (registry & tag & newImage & opt & Hr & Hc & Hl).
  exists registry, tag, newImage, opt. repeat split; try assumption.
  intros Hin. apply tagListed_In in Hin. congruence.
Qed.

(** X5. An image whose target tag is already listed is not copied: when
    the name parses, the credentials are present, the source answers and
    the tag computed by [retagImage] is in the listing of the computed
    repository, [processImage] returns the new image name after a pull and
    a listing call, without push, and the world is unchanged. *)
Theorem processImage_already_listed
        {W : Type} `{Collaborators W} (env : Environ)
        (imgName registry tag newImage : string) (s : State W)
        (ref newRef : Reference) (img : v1Image) :
  USERNAME env <> "" -> PASSWORD env <> "" ->
  ParseReference imgName = Ok ref ->
  remoteImage ref (world s) = Ok img ->
  retagImage (REPOSITORY env) imgName = Ret (registry, tag, newImage) ->
  ParseReference newImage = Ok newRef ->
  In tag (remoteList registry (mkAuth (USERNAME env) (PASSWORD env)) (world s)) ->
  processImage env imgName s
  = (Ret (Ok newImage),
     mkState (world s) (trace s ++ [RemoteImage imgName; RemoteList registry])).
Proof.
intros Hu Hp Href Himg Hretag Hnew Hin.
apply tagListed_In in Hin.
unfold processImage.
rewrite Href, (getRegistryCredentials_present env Hu Hp).
run_m. rewrite Himg. simpl. unfold repository. rewrite Hretag. simpl.
rewrite Hnew. unfold imageAlreadyPresentInRepo. run_m.
rewrite Hin. simpl. now rewrite app_two.
Qed.

Lemma processImage_already_listed_witness :
  let s := mkState (Mem.mkWorld [] [] [("backup/app", "v1")] None) [] in
  processImage Mem.env "myrepo/app:v1" s
  = (Ret (Ok "backup/app:v1"),
     mkState (world s) [RemoteImage "myrepo/app:v1"; RemoteList "backup/app"]).
Proof.
intros s.
apply (@processImage_already_listed _ Mem.collaborators Mem.env
         "myrepo/app:v1" "backup/app" "v1" "backup/app:v1" s
         ("myrepo/app", "v1") ("backup/app", "v1") "myrepo/app:v1");
  try reflexivity; try discriminate.
simpl. now left.
Defined.

(** A successful [processImage] returns the new image of [retagImage]. *)
Lemma processImage_returns_target
      {W : Type} `{Collaborators W} (env : Environ)
      (imgName img : string) (s s' : State W) :
  processImage env imgName s = (Ret (Ok img), s') ->
  exists registry tag,
    retagImage (REPOSITORY env) imgName = Ret (registry, tag, img).
Proof.
unfold processImage.
destruct (ParseReference imgName); [|discriminate].
destruct (getRegistryCredentials env); [|discriminate].
run_m.
destruct (remoteImage _ (world s)); simpl; [|discriminate].
unfold repository.
destruct (retagImage (REPOSITORY env) imgName) as [[[registry tag] newImage]|msg];
  simpl; [|discriminate].
destruct (ParseReference newImage); simpl; [|discriminate].
unfold imageAlreadyPresentInRepo. run_m.
destruct (tagListed _ tag); simpl.
- intros E. injection E as -> _. eauto.
- destruct (remoteWrite _ _ _ _) as [w' [e|]]; simpl; [discriminate|].
  intros E. injection E as -> _. eauto.
Qed.

(** X6. The image name returned by a successful [processImage] is under
    the destination prefix, so [imageNotPresent] answers false on it: a
    container rewritten to that name is not mirrored again by a later
    pass. *)
Theorem processImage_result_is_mirrored
        {W : Type} `{Collaborators W} (env : Environ)
        (imgName img : string) (s s' : State W) :
  processImage env imgName s = (Ret (Ok img), s') ->
  imageNotPresent (REPOSITORY env) img = false
  /\ exists rest, img = REPOSITORY env ++ "/" ++ rest.
Proof.
intros Hok.
destruct (processImage_returns_target env imgName s Hok)
  as (registry & tag & Hretag).
destruct (retagImage_shape (REPOSITORY env) imgName) as (n & t & Hshape & _).
rewrite Hshape in Hretag. injection Hretag as _ _ Himg.
assert (Hrest : exists rest, img = REPOSITORY env ++ "/" ++ rest).
{ destruct (String.length t =? 0)%nat; subst img; eexists; reflexivity. }
split; [|exact Hrest].
destruct Hrest as (rest & ->). apply imageNotPresent_prefixed.
Qed.

Lemma processImage_result_is_mirrored_witness :
  fst (processImage Mem.env "myrepo/app:v1" (Mem.cluster []))
  = Ret (Ok "backup/app:v1")
  /\ imageNotPresent (REPOSITORY Mem.env) "backup/app:v1" = false
  /\ exists rest, "backup/app:v1" = REPOSITORY Mem.env ++ "/" ++ rest.
Proof.
split; [reflexivity|].
apply (@processImage_result_is_mirrored _ Mem.collaborators Mem.env
         "myrepo/app:v1" "backup/app:v1" (Mem.cluster [])
         (snd (processImage Mem.env "myrepo/app:v1" (Mem.cluster [])))).
reflexivity.
Defined.

(** ** The reconcile pass, continued *)

Lemma not_ready_gtb (desired ready : Z) :
  isReady desired ready = false ->
  (desired =? ready)%Z && (desired >? 0)%Z = false.
Proof. unfold isReady. now rewrite Z.gtb_ltb. Qed.

Lemma ready_gtb (desired ready : Z) :
  isReady desired ready = true ->
  (desired =? ready)%Z && (desired >? 0)%Z = true.
Proof. unfold isReady. now rewrite Z.gtb_ltb. Qed.

(** X7. A workload that is found but not ready is not touched: the pass
    returns the error "deployment 'name' is not ready" (for a daemonset,
    "daemonset 'name' is not ready") after the lookup alone, with the
    world as it was. *)
Theorem checkAndUpdateImage_not_ready
        {W : Type} `{Collaborators W} (env : Environ)
        (key namespace name : string) (s : State W) :
  (forall d : Deployment,
      getDeployment namespace name (world s) = Ok d ->
      isReady (Replicas d) (ReadyReplicas d) = false ->
      checkAndUpdateImage env key "deployment" namespace name s
      = (Ret (Some (New ("deployment '" ++ name ++ "' is not ready"))),
         mkState (world s)
                 (trace s ++ [LogInfo "Updating image for resource, ";
                              ListerGet "deployment" namespace name])))
  /\ (forall d : DaemonSet,
         getDaemonSet namespace name (world s) = Ok d ->
         isReady (DesiredNumberScheduled d) (NumberReady d) = false ->
         checkAndUpdateImage env key "daemonset" namespace name s
         = (Ret (Some (New ("daemonset '" ++ name ++ "' is not ready"))),
            mkState (world s)
                    (trace s ++ [LogInfo "Updating image for resource, ";
                                 ListerGet "daemonset" namespace name]))).
Proof.
split; intros d Hget Hnot; apply not_ready_gtb in Hnot;
  unfold checkAndUpdateImage; run_m; rewrite Hget; simpl;
  rewrite Hnot; simpl; now rewrite app_two.
Qed.

Lemma checkAndUpdateImage_not_ready_witness :
  let d := mkDeployment "default" "app" 3 2 [mkContainer "app" "myrepo/app:v1"] in
  let ds := mkDaemonSet "default" "agent" 0 0 [mkContainer "agent" "myrepo/agent:v1"] in
  let s := mkState (Mem.mkWorld [d] [ds] [] None) [] in
  checkAndUpdateImage Mem.env "deployment/default/app" "deployment" "default" "app" s
  = (Ret (Some (New "deployment 'app' is not ready")),
     mkState (world s) [LogInfo "Updating image for resource, ";
                        ListerGet "deployment" "default" "app"])
  /\ checkAndUpdateImage Mem.env "daemonset/default/agent" "daemonset" "default" "agent" s
     = (Ret (Some (New "daemonset 'agent' is not ready")),
        mkState (world s) [LogInfo "Updating image for resource, ";
                           ListerGet "daemonset" "default" "agent"]).
Proof.
intros d ds s. split.
- apply (proj1 (@checkAndUpdateImage_not_ready _ Mem.collaborators Mem.env
                  "deployment/default/app" "default" "app" s) d);
    reflexivity.
- apply (proj2 (@checkAndUpdateImage_not_ready _ Mem.collaborators Mem.env
                  "daemonset/default/agent" "default" "agent" s) ds);
    reflexivity.
Defined.

(** X8. A ready workload without containers is reported as not ready: the
    loop has nothing to visit and the pass falls through to the error
    "... is not in ready state"; no registry or update call is issued. *)
Theorem checkAndUpdateImage_no_containers
        {W : Type} `{Collaborators W} (env : Environ)
        (key namespace name : string) (s : State W) (d : Deployment) :
  getDeployment namespace name (world s) = Ok d ->
  isReady (Replicas d) (ReadyReplicas d) = true ->
  dep_Containers d = [] ->
  checkAndUpdateImage env key "deployment" namespace name s
  = (Ret (Some (New ("'deployment' '" ++ name ++ "' in namespace '"
                     ++ namespace ++ "'is not in ready state"))),
     mkState (world s)
             (trace s ++ [LogInfo "Updating image for resource, ";
                          ListerGet "deployment" namespace name])).
Proof.
intros Hget Hready Hcs. apply ready_gtb in Hready.
unfold checkAndUpdateImage. run_m. rewrite Hget. simpl.
rewrite Hready. simpl. rewrite Hcs. simpl. now rewrite app_two.
Qed.

Lemma checkAndUpdateImage_no_containers_witness :
  let d := mkDeployment "default" "empty" 1 1 [] in
  let s := Mem.cluster [d] in
  checkAndUpdateImage Mem.env "deployment/default/empty" "deployment" "default" "empty" s
  = (Ret (Some (New "'deployment' 'empty' in namespace 'default'is not in ready state")),
     mkState (world s) [LogInfo "Updating image for resource, ";
                        ListerGet "deployment" "default" "empty"]).
Proof.
intros d s.
apply (@checkAndUpdateImage_no_containers _ Mem.collaborators Mem.env
         "deployment/default/empty" "default" "empty" s d); reflexivity.
Defined.

(** X9. A resource type other than [deployment] and [daemonset] is not
    looked up at all: the pass logs its start and returns the error
    "... is not in ready state", and the worker requeues the key on every
    pass. *)
Theorem checkAndUpdateImage_unknown_kind
        {W : Type} `{Collaborators W} (env : Environ)
        (key resourceType namespace name : string) (s : State W) :
  resourceType <> "deployment" ->
  resourceType <> "daemonset" ->
  strings.Split key slash = [resourceType; namespace; name] ->
  namespace <> "kube-system" ->
  checkAndUpdateImage env key resourceType namespace name s
  = (Ret (Some (New ("'" ++ resourceType ++ "' '" ++ name
                     ++ "' in namespace '" ++ namespace
                     ++ "'is not in ready state"))),
     mkState (world s) (trace s ++ [LogInfo "Updating image for resource, "]))
  /\ exists e,
      processNext env (StringItem key) s
      = (Ret (Some e),
         mkState (world s)
                 (trace s ++ [LogInfo "Processing resource.";
                              LogInfo "Updating image for resource, ";
                              AddRateLimited key;
                              Done (StringItem key)])).
Proof.
intros Hdep Hds Hkey Hns.
apply String.eqb_neq in Hdep, Hds, Hns.
assert (Hcheck : forall s0 : State W,
           checkAndUpdateImage env key resourceType namespace name s0
           = (Ret (Some (New ("'" ++ resourceType ++ "' '" ++ name
                              ++ "' in namespace '" ++ namespace
                              ++ "'is not in ready state"))),
              mkState (world s0)
                      (trace s0 ++ [LogInfo "Updating image for resource, "]))).
{ intros s0. unfold checkAndUpdateImage.
  unfold bind, ret, emit, lift. rewrite Hdep, Hds. reflexivity. }
split; [apply Hcheck|].
pose proof (processNext_reconciled env key s Hkey Hns) as Hnext.
cbv zeta in Hnext. rewrite Hcheck in Hnext. cbn [world trace] in Hnext.
eexists. rewrite Hnext. now rewrite <- !app_assoc.
Qed.

Lemma checkAndUpdateImage_unknown_kind_witness :
  exists e,
    processNext Mem.env (StringItem "pod/default/web") (Mem.cluster [])
    = (Ret (Some e),
       mkState (world (Mem.cluster []))
               [LogInfo "Processing resource.";
                LogInfo "Updating image for resource, ";
                AddRateLimited "pod/default/web";
                Done (StringItem "pod/default/web")]).
Proof.
apply (@checkAndUpdateImage_unknown_kind _ Mem.collaborators Mem.env
         "pod/default/web" "pod" "default" "web" (Mem.cluster []));
  try discriminate. reflexivity.
Defined.

(** The state in which the first container of a ready deployment is
    handed to [processImage]. *)
Lemma checkAndUpdateImage_first_needs
      {W : Type} `{Collaborators W} (env : Environ)
      (key namespace name : string) (s : State W)
      (d : Deployment) (cont : Container) (rest : list Container) :
  getDeployment namespace name (world s) = Ok d ->
  isReady (Replicas d) (ReadyReplicas d) = true ->
  dep_Containers d = cont :: rest ->
  imageNotPresent (REPOSITORY env) (Image cont) = true ->
  checkAndUpdateImage env key "deployment" namespace name s
  = match processImage env (Image cont)
            (mkState (world s)
                     (trace s ++ [LogInfo "Updating image for resource, ";
                                  ListerGet "deployment" namespace name;
                                  LogInfo "Processsing image"])) with
    | (Ret (Ok img), s2) =>
        let d' := mkDeployment (dep_Namespace d) (dep_Name d) (Replicas d)
                               (ReadyReplicas d)
                               (mkContainer (Name cont) img :: rest) in
        match updateDeployment namespace d' (world s2) with
        | (w3, None) =>
            (Ret None,
             mkState w3
                     (trace s2 ++ [LogInfo "Updating image in container spec for key, ";
                                   UpdateDeployment namespace d';
                                   LogInfo "Updated image, "]))
        | (w3, Some e) =>
            (Ret (Some e),
             mkState w3
                     (trace s2 ++ [LogInfo "Updating image in container spec for key, ";
                                   UpdateDeployment namespace d']))
        end
    | (Ret (Err err), s2) =>
        (Ret (Some (New ("error in processing image for '" ++ key
                         ++ "'. ContainerName '" ++ Name cont
                         ++ "'. Error: '" ++ Error err ++ "'"))), s2)
    | (Panic msg, s2) => (Panic msg, s2)
    end.
Proof.
intros Hget Hready Hcs Hneeds. apply ready_gtb in Hready.
unfold checkAndUpdateImage. run_m. rewrite Hget. simpl.
rewrite Hready. simpl. rewrite Hcs. simpl.
unfold containerStep, repository. rewrite Hneeds. run_m.
rewrite <- !app_assoc. simpl app.
destruct (processImage env (Image cont) _) as [[[img|err]|msg] s2];
  simpl; try reflexivity.
rewrite Hcs. simpl.
destruct (updateDeployment namespace _ (world s2)) as [w3 [e|]]; simpl;
  now rewrite <- !app_assoc.
Qed.

(** X10. A failed mirror never rewrites the workload: when [processImage]
    fails on the first container of a ready deployment, the pass returns
    an error naming the key and the container and wrapping the cause, in
    the very state [processImage] left: no update call follows. *)
Theorem checkAndUpdateImage_mirror_failed
        {W : Type} `{Collaborators W} (env : Environ)
        (key namespace name : string) (s s2 : State W) (err : error_value)
        (d : Deployment) (cont : Container) (rest : list Container) :
  getDeployment namespace name (world s) = Ok d ->
  isReady (Replicas d) (ReadyReplicas d) = true ->
  dep_Containers d = cont :: rest ->
  imageNotPresent (REPOSITORY env) (Image cont) = true ->
  processImage env (Image cont)
    (mkState (world s)
             (trace s ++ [LogInfo "Updating image for resource, ";
                          ListerGet "deployment" namespace name;
                          LogInfo "Processsing image"]))
  = (Ret (Err err), s2) ->
  checkAndUpdateImage env key "deployment" namespace name s
  = (Ret (Some (New ("error in processing image for '" ++ key
                     ++ "'. ContainerName '" ++ Name cont
                     ++ "'. Error: '" ++ Error err ++ "'"))), s2)
  /\ count isUpdate (trace s2) = count isUpdate (trace s).
Proof.
intros Hget Hready Hcs Hneeds Hprocess.
rewrite (checkAndUpdateImage_first_needs env key namespace name s
           Hget Hready Hcs Hneeds), Hprocess.
split; [reflexivity|].
pose proof (issues_count isUpdate
              (mkState (world s)
                       (trace s ++ [LogInfo "Updating image for resource, ";
                                    ListerGet "deployment" namespace name;
                                    LogInfo "Processsing image"]))
              (processImage_issues env (Image cont))) as Hc.
rewrite Hprocess in Hc. simpl in Hc. rewrite Hc.
- count_tac.
- intros e He. now destruct e.
Qed.

Lemma checkAndUpdateImage_mirror_failed_witness :
  let env := mkEnviron "backup" "" "" in
  let s := Mem.cluster [Mem.app "myrepo/app:v1"] in
  exists s2,
    checkAndUpdateImage env "deployment/default/app" "deployment" "default" "app" s
    = (Ret (Some (New "error in processing image for 'deployment/default/app'. ContainerName 'app'. Error: 'error while getting private registry creadentials. Error: 'failed to fetch credentials''")),
       s2)
    /\ count isUpdate (trace s2) = count isUpdate (trace s).
Proof.
intros env s.
exists (mkState (world s)
                [LogInfo "Updating image for resource, ";
                 ListerGet "deployment" "default" "app";
                 LogInfo "Processsing image"]).
apply (@checkAndUpdateImage_mirror_failed _ Mem.collaborators env
         "deployment/default/app" "default" "app" s _
         (New "error while getting private registry creadentials. Error: 'failed to fetch credentials'")
         (Mem.app "myrepo/app:v1") (mkContainer "app" "myrepo/app:v1") []);
  reflexivity.
Defined.



(** ** What one pass may do *)

Ltac count_all :=
  simpl; rewrite ?count_app; unfold count in *; simpl; lia.

Section PassDiscipline.
Context {W : Type} `{Collaborators W}.
Variable env : Environ.

Lemma registry_notQueue (e : Event) : isRegistry e = true -> notQueue e = true.
Proof. now destruct e. Qed.

Lemma containerStep_issues (key resourceType namespace : string)
      (dep : option Deployment) (daemonset : option DaemonSet)
      (i : nat) (cont : Container) :
  issues notQueue
         (containerStep env key resourceType namespace dep daemonset i cont).
Proof.
unfold containerStep.
destruct (imageNotPresent (repository env) (Image cont)).
- issues_step; [issues_step|].
  apply issues_bind.
  { apply (issues_weaken notQueue registry_notQueue).
    apply processImage_issues. }
  intros [img|err]; [|apply issues_ret].
  issues_step; [issues_step|].
  apply issues_bind.
  + destruct (resourceType =? "deployment"); [repeat issues_step|].
    destruct (resourceType =? "daemonset"); repeat issues_step.
  + intros [e|]; repeat issues_step.
- repeat issues_step.
Qed.

Lemma checkAndUpdateImage_issues (key resourceType namespace name : string) :
  issues notQueue (checkAndUpdateImage env key resourceType namespace name).
Proof.
unfold checkAndUpdateImage.
issues_step; [issues_step|].
apply issues_bind.
{ destruct (resourceType =? "deployment"); [repeat issues_step|].
  destruct (resourceType =? "daemonset"); repeat issues_step. }
intros [[dep daemonset] err].
apply issues_bind.
{ destruct (resourceType =? "deployment"); [repeat issues_step|].
  destruct (resourceType =? "daemonset"); repeat issues_step. }
intros [e|[ready containers]]; [apply issues_ret|].
apply issues_bind.
- destruct ready; [|apply issues_ret].
  apply issues_range. intros i x. apply containerStep_issues.
- intros [e|]; apply issues_ret.
Qed.

(** The loop body always returns from the function. *)
Lemma containerStep_returns (key resourceType namespace : string)
      (dep : option Deployment) (daemonset : option DaemonSet)
      (i : nat) (cont : Container) (s : State W) :
  fst (containerStep env key resourceType namespace dep daemonset i cont s)
  <> Ret None.
Proof.
unfold containerStep.
destruct (imageNotPresent (repository env) (Image cont)).
- run_m.
  destruct (processImage env (Image cont) _) as [[[img|e]|msg] s1];
    simpl; try discriminate.
  destruct (resourceType =? "deployment").
  + destruct (deref dep) as [d|msg]; simpl; try discriminate.
    destruct (setImage (dep_Containers d) i img) as [cs|msg]; simpl;
      try discriminate.
    destruct (updateDeployment _ _ _) as [w' [e|]]; simpl; discriminate.
  + destruct (resourceType =? "daemonset").
    * destruct (deref daemonset) as [d|msg]; simpl; try discriminate.
      destruct (setImage (ds_Containers d) i img) as [cs|msg]; simpl;
        try discriminate.
      destruct (updateDaemonSet _ _ _) as [w' [e|]]; simpl; discriminate.
    * simpl. discriminate.
- run_m. discriminate.
Qed.

(** So the loop over a non-empty list is its body on the first element. *)
Lemma range_containerStep_head (key resourceType namespace : string)
      (dep : option Deployment) (daemonset : option DaemonSet)
      (i : nat) (cont : Container) (rest : list Container) (s : State W) :
  range (containerStep env key resourceType namespace dep daemonset)
        i (cont :: rest) s
  = containerStep env key resourceType namespace dep daemonset i cont s.
Proof.
rewrite range_cons.
pose proof (containerStep_returns key resourceType namespace dep daemonset
                                  i cont s) as Hret.
destruct (containerStep env key resourceType namespace dep daemonset i cont s)
  as [[[e|]|msg] s']; simpl in *; congruence.
Qed.

(** The body pushes at most once and updates at most once. *)
Lemma containerStep_counts (key resourceType namespace : string)
      (dep : option Deployment) (daemonset : option DaemonSet)
      (i : nat) (cont : Container) (s s' : State W) (r : Go (option error)) :
  containerStep env key resourceType namespace dep daemonset i cont s = (r, s') ->
  count isPush (trace s') <= count isPush (trace s) + 1
  /\ count isUpdate (trace s') <= count isUpdate (trace s) + 1.
Proof.
unfold containerStep.
destruct (imageNotPresent (repository env) (Image cont)).
- unfold bind at 1. unfold emit at 1. cbv beta iota.
  set (s0 := mkState (world s) (trace s ++ [LogInfo "Processsing image"])%list).
  assert (Hpush : count isPush (trace (snd (processImage env (Image cont) s0)))
                  <= count isPush (trace s) + 1).
  { destruct (processImage_push_guard env (Image cont) s0) as [Hg|[Hg _]];
      rewrite Hg; subst s0; simpl; count_tac. }
  assert (Hupd : count isUpdate (trace (snd (processImage env (Image cont) s0)))
                 = count isUpdate (trace s)).
  { rewrite (issues_count isUpdate s0 (processImage_issues env (Image cont))).
    - subst s0. simpl. count_tac.
    - intros e He. now destruct e. }
  unfold bind at 1.
  destruct (processImage env (Image cont) s0) as [[[img|e]|msg] s1];
    simpl in Hpush, Hupd; simpl;
    try (intros E; injection E as <- <-; lia).
  run_m.
  destruct (resourceType =? "deployment").
  + destruct (deref dep) as [d|msg]; simpl;
      [|intros E; injection E as <- <-; count_all].
    destruct (setImage (dep_Containers d) i img) as [cs|msg]; simpl;
      [|intros E; injection E as <- <-; count_all].
    destruct (updateDeployment _ _ _) as [w' [e|]]; simpl;
      intros E; injection E as <- <-; count_all.
  + destruct (resourceType =? "daemonset").
    * destruct (deref daemonset) as [d|msg]; simpl;
        [|intros E; injection E as <- <-; count_all].
      destruct (setImage (ds_Containers d) i img) as [cs|msg]; simpl;
        [|intros E; injection E as <- <-; count_all].
      destruct (updateDaemonSet _ _ _) as [w' [e|]]; simpl;
        intros E; injection E as <- <-; count_all.
    * simpl. intros E; injection E as <- <-; count_all.
- run_m. intros E; injection E as <- <-; count_all.
Qed.

Lemma checkAndUpdateImage_counts (key resourceType namespace name : string)
      (s : State W) :
  let s' := snd (checkAndUpdateImage env key resourceType namespace name s) in
  count isPush (trace s') <= count isPush (trace s) + 1
  /\ count isUpdate (trace s') <= count isUpdate (trace s) + 1.
Proof.
assert (Hloop : forall dep daemonset containers (s0 : State W),
           count isPush (trace s0) = count isPush (trace s) ->
           count isUpdate (trace s0) = count isUpdate (trace s) ->
           let s' := snd (range (containerStep env key resourceType namespace
                                               dep daemonset)
                                0 containers s0) in
           count isPush (trace s') <= count isPush (trace s) + 1
           /\ count isUpdate (trace s') <= count isUpdate (trace s) + 1).
{ intros dep daemonset [|cont rest] s0 Hp Hu.
  - simpl. lia.
  - rewrite range_containerStep_head.
    destruct (containerStep env key resourceType namespace dep daemonset
                            0 cont s0) as [r s1] eqn:Hstep.
    pose proof (containerStep_counts _ _ _ _ _ _ _ _ Hstep) as Hc.
    cbv zeta. simpl. lia. }
unfold checkAndUpdateImage.
unfold bind at 1. unfold emit at 1. cbv beta iota.
destruct (resourceType =? "deployment").
- run_m. destruct (getDeployment namespace name (world s)) as [d|e]; simpl;
    [|count_tac].
  destruct ((Replicas d =? ReadyReplicas d)%Z && (Replicas d >? 0)%Z); simpl;
    [|count_tac].
  match goal with
  | |- context [range ?b 0 ?l ?s0] =>
      pose proof (Hloop (Some d) None l s0) as Hl;
      destruct (range b 0 l s0) as [[[r|]|msg] s1]
  end; simpl in *; apply Hl; count_tac.
- destruct (resourceType =? "daemonset").
  + run_m. destruct (getDaemonSet namespace name (world s)) as [d|e]; simpl;
      [|count_tac].
    destruct ((DesiredNumberScheduled d =? NumberReady d)%Z
              && (DesiredNumberScheduled d >? 0)%Z); simpl; [|count_tac].
    match goal with
    | |- context [range ?b 0 ?l ?s0] =>
        pose proof (Hloop None (Some d) l s0) as Hl;
        destruct (range b 0 l s0) as [[[r|]|msg] s1]
    end; simpl in *; apply Hl; count_tac.
  + run_m. count_tac.
Qed.

End PassDiscipline.

Lemma no_push_no_update_no_write (evs : list Event) :
  count isPush evs = 0 -> count isUpdate evs = 0 ->
  existsb isWrite evs = false.
Proof.
induction evs as [|e evs IH]; [reflexivity|].
unfold count, isWrite in *. simpl.
destruct (isPush e); simpl; [discriminate|].
destruct (isUpdate e); simpl; [discriminate|]. exact IH.
Qed.

(** X12. What one reconcile pass may do.  For every key, kind, namespace
    and name and from every state, [checkAndUpdateImage] appends to the
    trace no queue call, at most one push and at most one update call; and
    when it issued neither a push nor an update, the world is as it
    was. *)
Theorem checkAndUpdateImage_discipline
        {W : Type} `{Collaborators W} (env : Environ)
        (key resourceType namespace name : string) (s : State W) :
  let s' := snd (checkAndUpdateImage env key resourceType namespace name s) in
  exists evs : list Event,
    trace s' = (trace s ++ evs)%list
    /\ forallb notQueue evs = true
    /\ count isPush evs <= 1
    /\ count isUpdate evs <= 1
    /\ (count isPush evs = 0 -> count isUpdate evs = 0 -> world s' = world s).
Proof.
intros s'. subst s'.
destruct (checkAndUpdateImage_issues env key resourceType namespace name s)
  as (evs & Ht & Hp & Hw).
pose proof (checkAndUpdateImage_counts env key resourceType namespace name s)
  as [Hpush Hupd].
rewrite Ht, count_app in Hpush, Hupd.
exists evs. repeat split; try assumption; try lia.
intros H0 H1. apply Hw. now apply no_push_no_update_no_write.
Qed.

Section NoPanic.
Context {W : Type} `{Collaborators W}.
Variable env : Environ.

(** [processImage] never panics: the only partial step is [retagImage],
    which always returns. *)
Lemma processImage_no_panic (imgName : string) (s : State W) :
  exists r s', processImage env imgName s = (Ret r, s').
Proof.
unfold processImage.
destruct (ParseReference imgName); [|eexists; eexists; reflexivity].
destruct (getRegistryCredentials env); [|eexists; eexists; reflexivity].
run_m.
destruct (remoteImage _ (world s)); simpl; [|eexists; eexists; reflexivity].
unfold repository.
destruct (retagImage_total (REPOSITORY env) imgName)
  as ([[registry tag] newImage] & ->). simpl.
destruct (ParseReference newImage); simpl; [|eexists; eexists; reflexivity].
unfold imageAlreadyPresentInRepo. run_m.
destruct (tagListed _ tag); simpl; [eexists; eexists; reflexivity|].
destruct (remoteWrite _ _ _ _) as [w' [e|]]; simpl;
  eexists; eexists; reflexivity.
Qed.

Lemma containerStep_deployment_no_panic
      (key namespace : string) (d : Deployment) (daemonset : option DaemonSet)
      (cont : Container) (rest : list Container) (s : State W) :
  dep_Containers d = cont :: rest ->
  exists r s',
    containerStep env key "deployment" namespace (Some d) daemonset 0 cont s
    = (Ret r, s').
Proof.
intros Hcs. unfold containerStep.
destruct (imageNotPresent (repository env) (Image cont));
  [|run_m; eexists; eexists; reflexivity].
unfold bind at 1. unfold emit at 1. cbv beta iota.
unfold bind at 1.
destruct (processImage_no_panic (Image cont)
            (mkState (world s) (trace s ++ [LogInfo "Processsing image"])%list))
  as ([img|err] & s1 & ->); [|eexists; eexists; reflexivity].
run_m. rewrite Hcs. simpl.
destruct (updateDeployment _ _ _) as [w' [e|]]; simpl;
  eexists; eexists; reflexivity.
Qed.

Lemma containerStep_daemonset_no_panic
      (key namespace : string) (dep : option Deployment) (d : DaemonSet)
      (cont : Container) (rest : list Container) (s : State W) :
  ds_Containers d = cont :: rest ->
  exists r s',
    containerStep env key "daemonset" namespace dep (Some d) 0 cont s
    = (Ret r, s').
Proof.
intros Hcs. unfold containerStep.
destruct (imageNotPresent (repository env) (Image cont));
  [|run_m; eexists; eexists; reflexivity].
unfold bind at 1. unfold emit at 1. cbv beta iota.
unfold bind at 1.
destruct (processImage_no_panic (Image cont)
            (mkState (world s) (trace s ++ [LogInfo "Processsing image"])%list))
  as ([img|err] & s1 & ->); [|eexists; eexists; reflexivity].
run_m. rewrite Hcs. simpl.
destruct (updateDaemonSet _ _ _) as [w' [e|]]; simpl;
  eexists; eexists; reflexivity.
Qed.

Lemma checkAndUpdateImage_deployment_found
      (key namespace name : string) (s : State W) (d : Deployment) :
  getDeployment namespace name (world s) = Ok d ->
  exists r s',
    checkAndUpdateImage env key "deployment" namespace name s = (Ret r, s').
Proof.
intros Hget.
assert (Hloop : forall (s0 : State W),
           exists r s',
             range (containerStep env key "deployment" namespace (Some d) None)
                   0 (dep_Containers d) s0 = (Ret r, s')).
{ intros s0. destruct (dep_Containers d) as [|cont rest] eqn:Hcs.
  - eexists; eexists; reflexivity.
  - rewrite range_containerStep_head.
    destruct (containerStep_deployment_no_panic key namespace d None s0 Hcs)
      as (r & s' & ->).
    eexists; eexists; reflexivity. }
unfold checkAndUpdateImage. run_m. rewrite Hget. simpl.
destruct ((Replicas d =? ReadyReplicas d)%Z && (Replicas d >? 0)%Z); simpl;
  [|eexists; eexists; reflexivity].
match goal with
| |- context [range ?b 0 ?l ?s0] => destruct (Hloop s0) as ([e|] & s1 & ->)
end; eexists; eexists; reflexivity.
Qed.

Lemma checkAndUpdateImage_daemonset_found
      (key namespace name : string) (s : State W) (d : DaemonSet) :
  getDaemonSet namespace name (world s) = Ok d ->
  exists r s',
    checkAndUpdateImage env key "daemonset" namespace name s = (Ret r, s').
Proof.
intros Hget.
assert (Hloop : forall (s0 : State W),
           exists r s',
             range (containerStep env key "daemonset" namespace None (Some d))
                   0 (ds_Containers d) s0 = (Ret r, s')).
{ intros s0. destruct (ds_Containers d) as [|cont rest] eqn:Hcs.
  - eexists; eexists; reflexivity.
  - rewrite range_containerStep_head.
    destruct (containerStep_daemonset_no_panic key namespace None d s0 Hcs)
      as (r & s' & ->).
    eexists; eexists; reflexivity. }
unfold checkAndUpdateImage. run_m. rewrite Hget. simpl.
destruct ((DesiredNumberScheduled d =? NumberReady d)%Z
          && (DesiredNumberScheduled d >? 0)%Z); simpl;
  [|eexists; eexists; reflexivity].
match goal with
| |- context [range ?b 0 ?l ?s0] => destruct (Hloop s0) as ([e|] & s1 & ->)
end; eexists; eexists; reflexivity.
Qed.

End NoPanic.

(** X13. The pass panics exactly when the lookup fails.  For a deployment
    key, [checkAndUpdateImage] panics if and only if the lister answers an
    error for the namespace and name; in every other case it returns (nil
    or an error).  The same holds for a daemonset key. *)
Theorem checkAndUpdateImage_panics_iff_lookup_fails
        {W : Type} `{Collaborators W} (env : Environ)
        (key namespace name : string) (s : State W) :
  ((exists msg,
       fst (checkAndUpdateImage env key "deployment" namespace name s)
       = Panic msg)
   <-> exists e, getDeployment namespace name (world s) = Err e)
  /\ ((exists msg,
          fst (checkAndUpdateImage env key "daemonset" namespace name s)
          = Panic msg)
      <-> exists e, getDaemonSet namespace name (world s) = Err e).
Proof.
split; split.
- intros (msg & Hpanic).
  destruct (getDeployment namespace name (world s)) as [d|e] eqn:Hget; [|eauto].
  destruct (checkAndUpdateImage_deployment_found env key namespace name s Hget)
    as (r & s' & Hr).
  rewrite Hr in Hpanic. discriminate.
- intros (e & Hget).
  rewrite (checkAndUpdateImage_deployment_lookup_error env key namespace name s Hget).
  eexists. reflexivity.
- intros (msg & Hpanic).
  destruct (getDaemonSet namespace name (world s)) as [d|e] eqn:Hget; [|eauto].
  destruct (checkAndUpdateImage_daemonset_found env key namespace name s Hget)
    as (r & s' & Hr).
  rewrite Hr in Hpanic. discriminate.
- intros (e & Hget).
  rewrite (checkAndUpdateImage_daemonset_lookup_error env key namespace name s Hget).
  eexists. reflexivity.
Qed.

(** ** The worker, continued *)

Section Worker.
Context {W : Type} `{Collaborators W}.
Variable env : Environ.

(** A key of the excluded namespace. *)
Lemma processNext_excluded (key kind name : string) (s : State W) :
  strings.Split key slash = [kind; "kube-system"; name] ->
  processNext env (StringItem key) s
  = (Ret None,
     mkState (world s)
             (trace s ++ [Forget (StringItem key); Done (StringItem key)])).
Proof.
intros Hkey. unfold processNext, defer. rewrite Hkey.
unfold bind, lift, emit, ret.
cbn [List.length Nat.eqb negb index nth_error world trace String.eqb
     Ascii.eqb Bool.eqb].
now rewrite app_two.
Qed.

Lemma notQueue_counts (evs : list Event) :
  forallb notQueue evs = true ->
  count isDone evs = 0 /\ count isForget evs = 0
  /\ count isAddRateLimited evs = 0.
Proof.
induction evs as [|e evs IH]; [now repeat split|].
simpl. intros Hq. apply andb_prop in Hq as [He Hq].
destruct (IH Hq) as (H1 & H2 & H3). unfold count in *.
destruct e; simpl in *; try discriminate; auto.
Qed.

Lemma processNext_trace (obj : Item) (s : State W) :
  exists evs : list Event,
    trace (snd (processNext env obj s)) = (trace s ++ evs ++ [Done obj])%list
    /\ count isDone evs = 0
    /\ match fst (processNext env obj s) with
       | Ret None =>
           count isAddRateLimited evs = 0 /\ count isForget evs <= 1
       | Ret (Some _) =>
           count isAddRateLimited evs = 1 /\ count isForget evs = 0
       | Panic _ =>
           count isAddRateLimited evs = 0 /\ count isForget evs = 0
       end.
Proof.
destruct obj as [key|repr].
2:{ rewrite processNext_not_a_string. simpl.
    exists [Forget (OtherItem repr);
            HandleError ("expected string in workqueue but got " ++ repr)].
    repeat split; auto. }
destruct (List.length (strings.Split key slash) =? 3)%nat eqn:Hlen.
2:{ apply Nat.eqb_neq in Hlen. rewrite (processNext_malformed env key s Hlen).
    simpl. exists [HandleError ("invalid resource key: " ++ key)].
    repeat split; auto. }
apply Nat.eqb_eq in Hlen.
destruct (strings.Split key slash) as [|kind [|ns [|nm [|x l]]]] eqn:Hkey;
  try discriminate.
destruct (ns =? "kube-system") eqn:Hns.
- apply String.eqb_eq in Hns. subst ns.
  rewrite (processNext_excluded key s Hkey). simpl.
  exists [Forget (StringItem key)]. repeat split; auto.
- pose proof (processNext_reconciled env key s Hkey Hns) as Hnext.
  cbv zeta in Hnext.
  destruct (checkAndUpdateImage_issues env key kind ns nm
              (mkState (world s) (trace s ++ [LogInfo "Processing resource."])%list))
    as (evs0 & Ht & Hq & _).
  destruct (notQueue_counts _ Hq) as (Hd & Hf & Ha).
  destruct (checkAndUpdateImage env key kind ns nm _) as [[[e|]|msg] s1];
    rewrite Hnext; simpl in *; rewrite Ht.
  + exists (LogInfo "Processing resource." :: evs0 ++ [AddRateLimited key])%list.
    split; [rewrite <- ?app_assoc; simpl; now rewrite <- ?app_assoc|].
    change (LogInfo "Processing resource." :: evs0 ++ [AddRateLimited key])%list
      with ([LogInfo "Processing resource."] ++ evs0 ++ [AddRateLimited key])%list.
    rewrite !count_app. unfold count in *. simpl. lia.
  + exists (LogInfo "Processing resource." :: evs0 ++ [Forget (StringItem key)])%list.
    split; [rewrite <- ?app_assoc; simpl; now rewrite <- ?app_assoc|].
    change (LogInfo "Processing resource." :: evs0 ++ [Forget (StringItem key)])%list
      with ([LogInfo "Processing resource."] ++ evs0 ++ [Forget (StringItem key)])%list.
    rewrite !count_app. unfold count in *. simpl. lia.
  + exists (LogInfo "Processing resource." :: evs0)%list.
    split; [rewrite <- ?app_assoc; simpl; now rewrite <- ?app_assoc|].
    change (LogInfo "Processing resource." :: evs0)%list
      with ([LogInfo "Processing resource."] ++ evs0)%list.
    rewrite !count_app. unfold count in *. simpl. lia.
Qed.

Lemma runWorker_cons (res : Item) (later : list Item) (s : State W) :
  runWorker env (res :: later) s
  = match processNext env res s with
    | (Ret (Some e), s1) =>
        runWorker env later
                  (mkState (world s1) (trace s1 ++ [HandleError (Error e)])%list)
    | (Ret None, s1) => runWorker env later s1
    | (Panic msg, s1) => (Panic msg, s1)
    end.
Proof.
simpl. unfold bind at 1.
destruct (processNext env res s) as [[[e|]|msg] s1]; reflexivity.
Qed.

End Worker.

(** X14. Queue discipline of the worker.  For every dequeued item and
    from every state, [processNext] ends with the deferred [Done] on that
    item, also when the pass panics, and issues no other [Done]; when it
    returns an error it has called [AddRateLimited] once and [Forget] not
    at all; when it returns nil it has not called [AddRateLimited] and has
    called [Forget] at most once; when it panics it has called neither. *)
Theorem processNext_queue_discipline
        {W : Type} `{Collaborators W} (env : Environ)
        (obj : Item) (s : State W) :
  exists evs : list Event,
    trace (snd (processNext env obj s)) = (trace s ++ evs ++ [Done obj])%list
    /\ count isDone evs = 0
    /\ match fst (processNext env obj s) with
       | Ret None =>
           count isAddRateLimited evs = 0 /\ count isForget evs <= 1
       | Ret (Some _) =>
           count isAddRateLimited evs = 1 /\ count isForget evs = 0
       | Panic _ =>
           count isAddRateLimited evs = 0 /\ count isForget evs = 0
       end.
Proof. apply processNext_trace. Qed.


(** X16. The worker loop composes over the items, and a panic ends it:
    running it over [before ++ after] is running it over [before] and, if
    that returned, over [after] from the state reached; if a pass over
    [before] panicked, no item of [after] is touched. *)
Theorem runWorker_app
        {W : Type} `{Collaborators W} (env : Environ)
        (before after : list Item) (s : State W) :
  runWorker env (before ++ after)%list s
  = match runWorker env before s with
    | (Ret _, s1) => runWorker env after s1
    | (Panic msg, s1) => (Panic msg, s1)
    end.
Proof.
revert s. induction before as [|res later IH]; intros s; [reflexivity|].
change ((res :: later) ++ after)%list with (res :: (later ++ after))%list.
rewrite !runWorker_cons.
destruct (processNext env res s) as [[[e|]|msg] s1];
  [apply IH | apply IH | reflexivity].
Qed.

(** ** The success path *)



(** X18. [containers[i].Image = img] touches one field of one element.
    For an index within the list the assignment returns a list of the
    same length with the same container names, equal to the old one at
    every other index, whose element [i] has the old name and the new
    image; for an index outside the list it panics. *)
Theorem setImage_spec (containers : list Container) (i : nat) (img : string) :
  (i < List.length containers ->
   exists (cs : list Container) (c : Container),
     setImage containers i img = Ret cs
     /\ nth_error containers i = Some c
     /\ nth_error cs i = Some (mkContainer (Name c) img)
     /\ (forall j, j <> i -> nth_error cs j = nth_error containers j)
     /\ List.length cs = List.length containers
     /\ map Name cs = map Name containers)
  /\ (List.length containers <= i ->
      setImage containers i img = Panic "index out of range").
Proof.
revert i. induction containers as [|c rest IH]; intros i; split.
- simpl. lia.
- intros _. destruct i; reflexivity.
- intros Hlt. destruct i as [|i].
  + exists (mkContainer (Name c) img :: rest), c. simpl.
    repeat split. intros [|j] Hj; [congruence | reflexivity].
  + simpl in Hlt. destruct (proj1 (IH i)) as (cs & c' & Hs & Hn & Hn' & Ho & Hl & Hm);
      [lia|].
    exists (c :: cs), c'. simpl. rewrite Hs. simpl.
    repeat split; try assumption; try congruence.
    intros [|j] Hj; [reflexivity|]. simpl. apply Ho. congruence.
- intros Hle. destruct i as [|i]; simpl in Hle; [lia|].
  simpl. rewrite (proj2 (IH i)) by lia. reflexivity.
Qed.

Lemma setImage_spec_witness :
  setImage [mkContainer "a" "x/a:1"; mkContainer "b" "x/b:1"] 1 "backup/b:1"
  = Ret [mkContainer "a" "x/a:1"; mkContainer "b" "backup/b:1"]
  /\ setImage [mkContainer "a" "x/a:1"] 1 "backup/b:1"
     = Panic "index out of range".
Proof.
split.
- destruct (proj1 (setImage_spec [mkContainer "a" "x/a:1"; mkContainer "b" "x/b:1"]
                                 1 "backup/b:1"))
    as (cs & c & Hs & _); [simpl; lia | reflexivity].
- apply (proj2 (setImage_spec [mkContainer "a" "x/a:1"] 1 "backup/b:1")).
  simpl. lia.
Defined.

(** ** From the router to the worker *)

(** X19. Keys round-trip from the router to the worker.  For an object
    whose key function answers [namespace/name] without error, where
    neither part holds a slash, an add notification and an update
    notification (whatever the old object) put exactly one key on the
    queue, [deployment/namespace/name] resp. [daemonset/namespace/name],
    and the split the worker performs on that key gives back the kind, the
    namespace and the name; a delete notification puts nothing on the
    queue. *)
Theorem router_key_round_trip
        (Obj : Type) (MetaNamespaceKeyFunc : Obj -> string * error)
        (obj : Obj) (namespace name : string) :
  strings.Contains namespace slash = false ->
  strings.Contains name slash = false ->
  MetaNamespaceKeyFunc obj = (namespace ++ "/" ++ name, None) ->
  let depKey := "deployment/" ++ namespace ++ "/" ++ name in
  let dsKey := "daemonset/" ++ namespace ++ "/" ++ name in
  deploymentHandler MetaNamespaceKeyFunc (Added obj) = [QueueAdd depKey]
  /\ (forall oldObj,
         deploymentHandler MetaNamespaceKeyFunc (Updated oldObj obj)
         = [QueueAdd depKey])
  /\ daemonsetHandler MetaNamespaceKeyFunc (Added obj) = [QueueAdd dsKey]
  /\ (forall oldObj,
         daemonsetHandler MetaNamespaceKeyFunc (Updated oldObj obj)
         = [QueueAdd dsKey])
  /\ deploymentHandler MetaNamespaceKeyFunc (Deleted obj) = []
  /\ daemonsetHandler MetaNamespaceKeyFunc (Deleted obj) = []
  /\ strings.Split depKey slash = ["deployment"; namespace; name]
  /\ strings.Split dsKey slash = ["daemonset"; namespace; name].
Proof.
intros Hns Hname Hkey depKey dsKey.
assert (Htail : strings.Split (namespace ++ "/" ++ name) slash
                = [namespace; name]).
{ change (namespace ++ "/" ++ name) with (namespace ++ String slash name).
  now rewrite (Split_app _ _ _ Hns), (Split_without _ _ Hname). }
unfold deploymentHandler, daemonsetHandler,
  syncDeploymentImage, syncDaemonsetImage.
rewrite Hkey. repeat split.
- subst depKey.
  change ("deployment/" ++ namespace ++ "/" ++ name)
    with ("deployment" ++ String slash (namespace ++ "/" ++ name)).
  rewrite Split_app by reflexivity. now rewrite Htail.
- subst dsKey.
  change ("daemonset/" ++ namespace ++ "/" ++ name)
    with ("daemonset" ++ String slash (namespace ++ "/" ++ name)).
  rewrite Split_app by reflexivity. now rewrite Htail.
Qed.

Lemma router_key_round_trip_witness :
  deploymentHandler (fun d => (dep_Namespace d ++ "/" ++ dep_Name d, None))
                    (Added (Mem.app "myrepo/app:v1"))
  = [QueueAdd "deployment/default/app"]
  /\ strings.Split "deployment/default/app" slash
     = ["deployment"; "default"; "app"].
Proof.
destruct (@router_key_round_trip
            Deployment (fun d => (dep_Namespace d ++ "/" ++ dep_Name d, None))
            (Mem.app "myrepo/app:v1") "default" "app"
            eq_refl eq_refl eq_refl)
  as (Hadd & _ & _ & _ & _ & _ & Hsplit & _).
split; [exact Hadd | exact Hsplit].
Defined.

(** X20. A key without namespace never reaches a reconcile pass.  When the
    key function answers a key without slash (an object without
    namespace, or the empty key that comes with an error), the handler
    still puts [deployment/key] on the queue; the worker finds two pieces
    instead of three, reports the invalid key and marks the item done: no
    lookup, no registry call, no update, and the world is as it was. *)
Theorem router_unscoped_key_dropped
        {W : Type} `{Collaborators W} (env : Environ)
        (Obj : Type) (MetaNamespaceKeyFunc : Obj -> string * error)
        (obj : Obj) (key : string) (err : error) (s : State W) :
  MetaNamespaceKeyFunc obj = (key, err) ->
  strings.Contains key slash = false ->
  addedKeys (deploymentHandler MetaNamespaceKeyFunc (Added obj))
  = ["deployment/" ++ key]
  /\ processNext env (StringItem ("deployment/" ++ key)) s
     = (Ret None,
        mkState (world s)
                (trace s ++ [HandleError ("invalid resource key: deployment/" ++ key);
                             Done (StringItem ("deployment/" ++ key))])).
Proof.
intros Hkey Hfree. split.
- unfold deploymentHandler, syncDeploymentImage. rewrite Hkey.
  destruct err; reflexivity.
- apply processNext_malformed.
  change ("deployment/" ++ key) with ("deployment" ++ String slash key).
  rewrite Split_app by reflexivity.
  rewrite (Split_without _ _ Hfree). simpl. lia.
Qed.

Lemma router_unscoped_key_dropped_witness :
  processNext Mem.env (StringItem "deployment/") (Mem.cluster [Mem.app "myrepo/app:v1"])
  = (Ret None,
     mkState (world (Mem.cluster [Mem.app "myrepo/app:v1"]))
             [HandleError "invalid resource key: deployment/";
              Done (StringItem "deployment/")]).
Proof.
apply (proj2 (@router_unscoped_key_dropped
                _ Mem.collaborators Mem.env unit
                (fun _ => ("", Some (New "object has no meta")))
                tt "" (Some (New "object has no meta"))
                (Mem.cluster [Mem.app "myrepo/app:v1"]) eq_refl eq_refl)).
Defined.

(** ** Process start-up *)

(** X21. Where the client comes from.  [GetClientset] returns a client
    exactly when a configuration is available, from inside the cluster or,
    failing that, from the kubeconfig under [HOME], and
    [kubernetes.NewForConfig] accepts that configuration.  The in-cluster
    configuration wins: when it is available the result does not depend
    on the kubeconfig and nothing is logged; the error-level log line is
    written exactly when the in-cluster configuration failed. *)
Theorem GetClientset_spec
        (Config Clientset : Type) (InClusterConfig : result Config)
        (HOME : string) (Join : list string -> string)
        (BuildConfigFromFlags : string -> string -> result Config)
        (NewForConfig : Config -> result Clientset) :
  let run := cmd.GetClientset InClusterConfig HOME Join BuildConfigFromFlags
                              NewForConfig in
  (forall clientset,
      fst run = Ok clientset
      <-> exists config,
          (InClusterConfig = Ok config
           \/ ((exists e, InClusterConfig = Err e)
               /\ BuildConfigFromFlags "" (Join [HOME; ".kube"; "config"])
                  = Ok config))
          /\ NewForConfig config = Ok clientset)
  /\ (forall config,
         InClusterConfig = Ok config ->
         forall otherBuild,
           cmd.GetClientset InClusterConfig HOME Join otherBuild NewForConfig
           = run)
  /\ (snd run = [] <-> exists config, InClusterConfig = Ok config).
Proof.
intros run. subst run. unfold cmd.GetClientset, cmd.GetClientConfig.
split; [|split].
- intros clientset. split.
  + destruct InClusterConfig as [config|e1].
    * destruct (NewForConfig config) eqn:Hnew; simpl; [|discriminate].
      intros E. injection E as ->. exists config. auto.
    * destruct (BuildConfigFromFlags "" _) as [config|e2] eqn:Hb;
        simpl; [|discriminate].
      destruct (NewForConfig config) eqn:Hnew; simpl; [|discriminate].
      intros E. injection E as ->. exists config. split; [|assumption].
      right. split; [eauto|reflexivity].
  + intros (config & [-> | ((e & ->) & ->)] & ->); reflexivity.
- intros config -> otherBuild. reflexivity.
- split.
  + destruct InClusterConfig as [config|e1]; [eauto|].
    destruct (BuildConfigFromFlags "" _) as [config|e2]; simpl.
    * destruct (NewForConfig config); simpl; discriminate.
    * discriminate.
  + intros (config & ->). destruct (NewForConfig config); reflexivity.
Qed.

(** ** After the rewrite *)

(** X22. The pass after a rewrite is quiet.  When the first container of
    a ready deployment carries an image name that a successful
    [processImage] returned, the pass returns nil after the lookup alone:
    no registry call, no update call, and the world is as it was,
    whatever the later containers are. *)
Theorem checkAndUpdateImage_after_rewrite
        {W : Type} `{Collaborators W} (env : Environ)
        (imgName img key namespace name cname : string)
        (s0 s1 s : State W) (d : Deployment) (rest : list Container) :
  processImage env imgName s0 = (Ret (Ok img), s1) ->
  getDeployment namespace name (world s) = Ok d ->
  isReady (Replicas d) (ReadyReplicas d) = true ->
  dep_Containers d = mkContainer cname img :: rest ->
  checkAndUpdateImage env key "deployment" namespace name s
  = (Ret None,
     mkState (world s)
             (trace s ++ [LogInfo "Updating image for resource, ";
                          ListerGet "deployment" namespace name;
                          LogInfo "Image is already present in registry for"])).
Proof.
intros Hprocess Hget Hready Hcs.
destruct (processImage_returns_target env imgName s0 Hprocess)
  as (registry & tag & Hretag).
destruct (retagImage_shape (REPOSITORY env) imgName) as (n & t & Hshape & _).
rewrite Hshape in Hretag. injection Hretag as _ _ Himg.
assert (Hmirrored : imageNotPresent (REPOSITORY env) img = false).
{ destruct (String.length t =? 0)%nat; subst img;
    apply imageNotPresent_prefixed. }
apply (checkAndUpdateImage_first_mirrored env key namespace name s
         Hget Hready Hcs).
exact Hmirrored.
Qed.

Lemma checkAndUpdateImage_after_rewrite_witness :
  let d := mkDeployment "default" "web" 2 2
             [mkContainer "web" "backup/web:v3"; mkContainer "log" "quay.io/log:v1"] in
  let s := Mem.cluster [d] in
  fst (processImage Mem.env "myrepo/web:v3" (Mem.cluster [])) = Ret (Ok "backup/web:v3")
  /\ checkAndUpdateImage Mem.env "deployment/default/web" "deployment" "default" "web" s
     = (Ret None,
        mkState (world s)
                [LogInfo "Updating image for resource, ";
                 ListerGet "deployment" "default" "web";
                 LogInfo "Image is already present in registry for"]).
Proof.
intros d s. split; [reflexivity|].
apply (@checkAndUpdateImage_after_rewrite _ Mem.collaborators Mem.env
         "myrepo/web:v3" "backup/web:v3" "deployment/default/web"
         "default" "web" "web"
         (Mem.cluster [])
         (snd (processImage Mem.env "myrepo/web:v3" (Mem.cluster [])))
         s d [mkContainer "log" "quay.io/log:v1"]);
  reflexivity.
Defined.
